(** * The planning store of jtm-order (app/src/stores/planningStore.ts)

    A shallow embedding of the Pinia store [usePlanningStore]: the pivot
    transform, the cell editor with its closing-stock recompute, the edit
    tracker, and the batch commit / discard actions, followed by the
    properties the specification states about them.

    Modelling conventions.
    - A JavaScript [number] is a [Z].  The grid parses quantities with
      [parseInt]; the only arithmetic of the store is
      [stok_awal + order_qty - estimasi_jual]; [ito], a decimal in the
      database, is only copied.  Fractions, rounding and NaN are outside
      the model.  The year and the months of the filter are integers and
      are printed in decimal, as [toString] prints them.
    - [string | null] is [option string]; a value is falsy when it is
      [None] or the empty string.
    - A plain object used as a dictionary ([row.months]) is a
      [gmap string _]; inherited prototype properties are not modelled.
    - A JavaScript [Map] is an insertion-ordered association list
      ([JsMap]): [set] on a present key replaces the value in place,
      [set] on a fresh key appends.
    - What the backend answers to a request is an explicit argument of
      the action that awaits it; the requests an action issues are
      returned next to the new store.  An action runs to completion:
      edits interleaved with a pending [await] are outside the model. *)

From stdpp Require Import base option list gmap strings pretty sorting fin_maps.
From Stdlib Require Import ZArith Lia Ascii.

Local Open Scope string_scope.
Local Open Scope Z_scope.

(* ===================================================================== *)
(** ** JavaScript helpers *)
(* ===================================================================== *)

(** [!!x] for [x : string | null | undefined]. *)
Definition truthy (x : option string) : bool :=
  match x with
  | Some s => negb (String.eqb s "")
  | None => false
  end.

(** [x || ''] for [x : string | null]. *)
Definition or_empty (x : option string) : string :=
  if truthy x then default "" x else "".

(** [s.padStart(2, '0')]. *)
Definition padStart2 (s : string) : string :=
  match String.length s with
  | O => "00"
  | S O => "0" +:+ s
  | _ => s
  end.

(** [s.substring(0, 7)]. *)
Definition substring07 (s : string) : string := String.substring 0 7 s.

(** [s.split(sep)] for a one-character separator. *)
Fixpoint split (sep : ascii) (s : string) : list string :=
  match s with
  | EmptyString => [""]
  | String c s' =>
      if Ascii.eqb c sep then "" :: split sep s'
      else match split sep s' with
           | [] => [String c ""]
           | p :: ps => String c p :: ps
           end
  end.

(** [a[i]] on an array, [undefined] ([None]) out of range. *)
Definition array_get {A} (a : list A) (i : Z) : option A :=
  if i <? 0 then None else a !! Z.to_nat i.

(** *** Insertion-ordered [Map<string, V>] *)

Definition JsMap (V : Type) : Type := list (string * V).

Fixpoint js_get {V} (k : string) (m : JsMap V) : option V :=
  match m with
  | [] => None
  | (k', v) :: m' => if String.eqb k' k then Some v else js_get k m'
  end.

Fixpoint js_set {V} (k : string) (v : V) (m : JsMap V) : JsMap V :=
  match m with
  | [] => [(k, v)]
  | (k', v') :: m' =>
      if String.eqb k' k then (k, v) :: m' else (k', v') :: js_set k v m'
  end.

Definition js_keys {V} (m : JsMap V) : list string := m.*1.
Definition js_values {V} (m : JsMap V) : list V := m.*2.
Definition js_size {V} (m : JsMap V) : nat := List.length m.

(** [err instanceof Error ? err.message : fallback]. *)
Inductive thrown : Type :=
  | ErrorObject (message : string)
  | OtherValue.

Definition error_message (e : thrown) (fallback : string) : string :=
  match e with
  | ErrorObject m => m
  | OtherValue => fallback
  end.

(** The [{ data, error }] answer of a Supabase query.  A rejected promise
    reaches the same [catch] block as a non-null [error]. *)
Record response (A : Type) : Type := Response {
  resp_data : option A;
  resp_error : option thrown
}.
Arguments Response {A} _ _.
Arguments resp_data {A} _.
Arguments resp_error {A} _.

(* ===================================================================== *)
(** ** Data model (types/database.types.ts) *)
(* ===================================================================== *)

Inductive ProductCategory : Type := AMB | MCB.

#[global] Instance ProductCategory_eq_dec : EqDecision ProductCategory.
Proof. solve_decision. Defined.

Module MasterProduct.
Record t : Type := mk {
  id : string;
  kode_barang : string;
  nama_produk : option string;
  tipe : string;
  kategori : ProductCategory;
  std_pallet : Z;
  isi_dus : Z
}.
End MasterProduct.

Module MasterRegion.
Record t : Type := mk {
  id : string;
  kode : string;
  nama : string;
  is_active : bool
}.
End MasterRegion.

(** The columns of [v_sales_plans_detail] that the store reads. *)
Module SalesPlanDetail.
Record t : Type := mk {
  id : string;
  bulan_tahun : string;
  bulan_label : string;
  product_id : string;
  region_kode : string;
  target_jual : Z;
  estimasi_jual : Z;
  realisasi_sales : Z;
  stok_awal : Z;
  stok_akhir : Z;
  order_qty : Z;
  ito : Z
}.
End SalesPlanDetail.

Module MonthData.
Record t : Type := mk {
  id : option string;
  bulan_tahun : string;
  bulan_label : string;
  target_jual : Z;
  estimasi_jual : Z;
  realisasi_sales : Z;
  stok_awal : Z;
  stok_akhir : Z;
  order_qty : Z;
  ito : Z;
  isModified : bool
}.
End MonthData.

(** [keyof MonthData]. *)
Inductive MonthDataKey : Type :=
  | K_id | K_bulan_tahun | K_bulan_label
  | K_target_jual | K_estimasi_jual | K_realisasi_sales
  | K_stok_awal | K_stok_akhir | K_order_qty | K_ito | K_isModified.

Module PivotedProductRow.
Record t : Type := mk {
  product_id : string;
  kode_barang : string;
  nama_produk : option string;
  tipe : string;
  kategori : ProductCategory;
  std_pallet : Z;
  isi_dus : Z;
  region_id : string;
  region_kode : string;
  months : gmap string MonthData.t
}.
End PivotedProductRow.

Module PlanningFilter.
Record t : Type := mk {
  region_id : option string;
  kategori : option ProductCategory;
  year : Z;
  startMonth : Z;
  endMonth : Z
}.
End PlanningFilter.

(** [Partial<PlanningFilter>]: every property may be absent ([None]); a
    property that is present carries its new value, which for
    [region_id] and [kategori] may be [null]. *)
Module PartialFilter.
Record t : Type := mk {
  region_id : option (option string);
  kategori : option (option ProductCategory);
  year : option Z;
  startMonth : option Z;
  endMonth : option Z
}.
End PartialFilter.

(** The local interface [UpsertRecord] of [saveChanges]. *)
Module UpsertRecord.
Record t : Type := mk {
  id : option string;
  product_id : string;
  region_id : string;
  bulan_tahun : string;
  target_jual : Z;
  estimasi_jual : Z;
  realisasi_sales : Z;
  stok_awal : Z;
  stok_akhir : Z;
  order_qty : Z;
  ito : Z
}.
End UpsertRecord.

(** An element of the computed [monthColumns]. *)
Module MonthColumn.
Record t : Type := mk {
  key : string;
  label : string;
  date : string
}.
End MonthColumn.

(** The reactive state of the store. *)
Record Store : Type := mkStore {
  products : list MasterProduct.t;
  regions : list MasterRegion.t;
  salesPlanDetails : list SalesPlanDetail.t;
  pivotedData : list PivotedProductRow.t;
  isLoading : bool;
  isSaving : bool;
  error : option string;
  currentFilter : PlanningFilter.t;
  modifiedCells : JsMap MonthData.t
}.

(** Requests sent to the backend. *)
Inductive request : Type :=
  | SelectProducts
  | SelectRegions
  | SelectSalesPlans (region_id startDate endDate : string)
                     (kategori : option ProductCategory)
  | UpsertSalesPlans (records : list UpsertRecord.t).

(** *** Field updates *)

Definition set_products (v : list MasterProduct.t) (s : Store) : Store :=
  mkStore v (regions s) (salesPlanDetails s) (pivotedData s) (isLoading s)
          (isSaving s) (error s) (currentFilter s) (modifiedCells s).
Definition set_regions (v : list MasterRegion.t) (s : Store) : Store :=
  mkStore (products s) v (salesPlanDetails s) (pivotedData s) (isLoading s)
          (isSaving s) (error s) (currentFilter s) (modifiedCells s).
Definition set_salesPlanDetails (v : list SalesPlanDetail.t) (s : Store) : Store :=
  mkStore (products s) (regions s) v (pivotedData s) (isLoading s)
          (isSaving s) (error s) (currentFilter s) (modifiedCells s).
Definition set_pivotedData (v : list PivotedProductRow.t) (s : Store) : Store :=
  mkStore (products s) (regions s) (salesPlanDetails s) v (isLoading s)
          (isSaving s) (error s) (currentFilter s) (modifiedCells s).
Definition set_isLoading (v : bool) (s : Store) : Store :=
  mkStore (products s) (regions s) (salesPlanDetails s) (pivotedData s) v
          (isSaving s) (error s) (currentFilter s) (modifiedCells s).
Definition set_isSaving (v : bool) (s : Store) : Store :=
  mkStore (products s) (regions s) (salesPlanDetails s) (pivotedData s)
          (isLoading s) v (error s) (currentFilter s) (modifiedCells s).
Definition set_error (v : option string) (s : Store) : Store :=
  mkStore (products s) (regions s) (salesPlanDetails s) (pivotedData s)
          (isLoading s) (isSaving s) v (currentFilter s) (modifiedCells s).
Definition set_currentFilter (v : PlanningFilter.t) (s : Store) : Store :=
  mkStore (products s) (regions s) (salesPlanDetails s) (pivotedData s)
          (isLoading s) (isSaving s) (error s) v (modifiedCells s).
Definition set_modifiedCells (v : JsMap MonthData.t) (s : Store) : Store :=
  mkStore (products s) (regions s) (salesPlanDetails s) (pivotedData s)
          (isLoading s) (isSaving s) (error s) (currentFilter s) v.

Definition set_months (v : gmap string MonthData.t)
    (r : PivotedProductRow.t) : PivotedProductRow.t :=
  PivotedProductRow.mk
    (PivotedProductRow.product_id r) (PivotedProductRow.kode_barang r)
    (PivotedProductRow.nama_produk r) (PivotedProductRow.tipe r)
    (PivotedProductRow.kategori r) (PivotedProductRow.std_pallet r)
    (PivotedProductRow.isi_dus r) (PivotedProductRow.region_id r)
    (PivotedProductRow.region_kode r) v.
Definition set_region_kode (v : string)
    (r : PivotedProductRow.t) : PivotedProductRow.t :=
  PivotedProductRow.mk
    (PivotedProductRow.product_id r) (PivotedProductRow.kode_barang r)
    (PivotedProductRow.nama_produk r) (PivotedProductRow.tipe r)
    (PivotedProductRow.kategori r) (PivotedProductRow.std_pallet r)
    (PivotedProductRow.isi_dus r) (PivotedProductRow.region_id r)
    v (PivotedProductRow.months r).

(* ===================================================================== *)
(** ** State and getters *)
(* ===================================================================== *)

(** The store as [defineStore] creates it; [thisYear] is
    [new Date().getFullYear()]. *)
Definition initialStore (thisYear : Z) : Store :=
  {| products := []; regions := []; salesPlanDetails := [];
     pivotedData := []; isLoading := false; isSaving := false;
     error := None;
     currentFilter := PlanningFilter.mk None None thisYear 1 12;
     modifiedCells := [] |}.

Definition hasUnsavedChanges (s : Store) : bool :=
  bool_decide (0 < js_size (modifiedCells s))%nat.

Definition monthNames : list string :=
  ["Jan"; "Feb"; "Mar"; "Apr"; "Mei"; "Jun";
   "Jul"; "Agu"; "Sep"; "Okt"; "Nov"; "Des"].

(** The body of the [for] loop of [monthColumns] at month [m]. *)
Definition monthColumn (year m : Z) : MonthColumn.t :=
  let monthStr := padStart2 (pretty m) in
  let date := pretty year +:+ "-" +:+ monthStr +:+ "-01" in
  {| MonthColumn.key := pretty year +:+ "-" +:+ monthStr;
     MonthColumn.label :=
       default "undefined" (array_get monthNames (m - 1)) +:+ " " +:+ pretty year;
     MonthColumn.date := date |}.

(** [for (let m = startMonth; m <= endMonth; m++)]. *)
Definition monthColumns (f : PlanningFilter.t) : list MonthColumn.t :=
  monthColumn (PlanningFilter.year f)
    <$> seqZ (PlanningFilter.startMonth f)
             (PlanningFilter.endMonth f - PlanningFilter.startMonth f + 1).

(* ===================================================================== *)
(** ** The pivot transform *)
(* ===================================================================== *)

Definition createEmptyMonthData (date label : string) : MonthData.t :=
  {| MonthData.id := None;
     MonthData.bulan_tahun := date;
     MonthData.bulan_label := label;
     MonthData.target_jual := 0;
     MonthData.estimasi_jual := 0;
     MonthData.realisasi_sales := 0;
     MonthData.stok_awal := 0;
     MonthData.stok_akhir := 0;
     MonthData.order_qty := 0;
     MonthData.ito := 0;
     MonthData.isModified := false |}.

(** The object literal that a sales plan is turned into. *)
Definition monthDataOfPlan (plan : SalesPlanDetail.t) : MonthData.t :=
  {| MonthData.id := Some (SalesPlanDetail.id plan);
     MonthData.bulan_tahun := SalesPlanDetail.bulan_tahun plan;
     MonthData.bulan_label := SalesPlanDetail.bulan_label plan;
     MonthData.target_jual := SalesPlanDetail.target_jual plan;
     MonthData.estimasi_jual := SalesPlanDetail.estimasi_jual plan;
     MonthData.realisasi_sales := SalesPlanDetail.realisasi_sales plan;
     MonthData.stok_awal := SalesPlanDetail.stok_awal plan;
     MonthData.stok_akhir := SalesPlanDetail.stok_akhir plan;
     MonthData.order_qty := SalesPlanDetail.order_qty plan;
     MonthData.ito := SalesPlanDetail.ito plan;
     MonthData.isModified := false |}.

(** [filteredProducts]. *)
Definition filteredProducts (f : PlanningFilter.t)
    (ps : list MasterProduct.t) : list MasterProduct.t :=
  match PlanningFilter.kategori f with
  | Some k =>
      filter (fun p => MasterProduct.kategori p = k) ps
  | None => ps
  end.

(** The inner loop that fills [row.months] with empty cells. *)
Definition emptyMonths (cols : list MonthColumn.t) : gmap string MonthData.t :=
  foldl (fun ms month =>
           <[MonthColumn.key month :=
               createEmptyMonthData (MonthColumn.date month)
                                    (MonthColumn.label month)]> ms)
        ∅ cols.

(** The row initialised for a product. *)
Definition initialRow (f : PlanningFilter.t) (cols : list MonthColumn.t)
    (product : MasterProduct.t) : PivotedProductRow.t :=
  {| PivotedProductRow.product_id := MasterProduct.id product;
     PivotedProductRow.kode_barang := MasterProduct.kode_barang product;
     PivotedProductRow.nama_produk := MasterProduct.nama_produk product;
     PivotedProductRow.tipe := MasterProduct.tipe product;
     PivotedProductRow.kategori := MasterProduct.kategori product;
     PivotedProductRow.std_pallet := MasterProduct.std_pallet product;
     PivotedProductRow.isi_dus := MasterProduct.isi_dus product;
     PivotedProductRow.region_id := or_empty (PlanningFilter.region_id f);
     PivotedProductRow.region_kode := "";
     PivotedProductRow.months := emptyMonths cols |}.

(** First loop: one [productMap.set] per filtered product. *)
Definition initRows (f : PlanningFilter.t) (cols : list MonthColumn.t)
    (ps : list MasterProduct.t) : JsMap PivotedProductRow.t :=
  foldl (fun pm product =>
           js_set (MasterProduct.id product) (initialRow f cols product) pm)
        [] ps.

(** What the second loop does to the row it found for [plan]. *)
Definition fillRow (plan : SalesPlanDetail.t)
    (row : PivotedProductRow.t) : PivotedProductRow.t :=
  let row1 := set_region_kode (SalesPlanDetail.region_kode plan) row in
  let monthKey := substring07 (SalesPlanDetail.bulan_tahun plan) in
  match PivotedProductRow.months row1 !! monthKey with
  | Some _ =>
      set_months (<[monthKey := monthDataOfPlan plan]>
                    (PivotedProductRow.months row1)) row1
  | None => row1
  end.

(** Body of the second loop.  The row object is mutated in place, which
    is a [set] under the key it already has. *)
Definition fillPlan (pm : JsMap PivotedProductRow.t)
    (plan : SalesPlanDetail.t) : JsMap PivotedProductRow.t :=
  match js_get (SalesPlanDetail.product_id plan) pm with
  | None => pm
  | Some row => js_set (SalesPlanDetail.product_id plan) (fillRow plan row) pm
  end.

(** The value assigned to [pivotedData]. *)
Definition pivot (f : PlanningFilter.t) (ps : list MasterProduct.t)
    (plans : list SalesPlanDetail.t) : list PivotedProductRow.t :=
  let productMap := initRows f (monthColumns f) (filteredProducts f ps) in
  js_values (foldl fillPlan productMap plans).

Definition transformToPivotedData (s : Store) : Store :=
  set_pivotedData
    (pivot (currentFilter s) (products s) (salesPlanDetails s)) s.

(* ===================================================================== *)
(** ** Editing a cell *)
(* ===================================================================== *)

(** The [switch (field)] of [updateCell]; keys without a [case] fall
    through unchanged. *)
Definition assignField (field : MonthDataKey) (value : Z)
    (c : MonthData.t) : MonthData.t :=
  let '(MonthData.mk id bt bl tj ej rs sa sk oq it md) := c in
  match field with
  | K_stok_awal => MonthData.mk id bt bl tj ej rs value sk oq it md
  | K_order_qty => MonthData.mk id bt bl tj ej rs sa sk value it md
  | K_estimasi_jual => MonthData.mk id bt bl tj value rs sa sk oq it md
  | K_target_jual => MonthData.mk id bt bl value ej rs sa sk oq it md
  | K_realisasi_sales => MonthData.mk id bt bl tj ej value sa sk oq it md
  | K_ito => MonthData.mk id bt bl tj ej rs sa sk oq value md
  | _ => c
  end.

Definition markModified (c : MonthData.t) : MonthData.t :=
  let '(MonthData.mk id bt bl tj ej rs sa sk oq it _) := c in
  MonthData.mk id bt bl tj ej rs sa sk oq it true.

(** [['stok_awal', 'order_qty', 'estimasi_jual'].includes(field)]. *)
Definition triggersRecompute (field : MonthDataKey) : bool :=
  match field with
  | K_stok_awal | K_order_qty | K_estimasi_jual => true
  | _ => false
  end.

Definition recompute (c : MonthData.t) : MonthData.t :=
  let '(MonthData.mk id bt bl tj ej rs sa _ oq it md) := c in
  MonthData.mk id bt bl tj ej rs sa (sa + oq - ej) oq it md.

(** What [updateCell] does to the cell object it found. *)
Definition editCell (field : MonthDataKey) (value : Z)
    (c : MonthData.t) : MonthData.t :=
  let c1 := markModified (assignField field value c) in
  if triggersRecompute field then recompute c1 else c1.

(** [`${productId}_${monthKey}`]. *)
Definition cellKey (productId monthKey : string) : string :=
  productId +:+ "_" +:+ monthKey.

(** [pivotedData.value.find(r => r.product_id === productId)], with the
    position of the row found. *)
Definition findRow (productId : string) (rows : list PivotedProductRow.t)
    : option (nat * PivotedProductRow.t) :=
  list_find (fun r => PivotedProductRow.product_id r = productId) rows.

Definition updateCell (productId monthKey : string) (field : MonthDataKey)
    (value : Z) (s : Store) : Store :=
  match findRow productId (pivotedData s) with
  | None => s
  | Some (i, row) =>
      match PivotedProductRow.months row !! monthKey with
      | None => s
      | Some monthData =>
          let monthData' := editCell field value monthData in
          let row' :=
            set_months (<[monthKey := monthData']>
                          (PivotedProductRow.months row)) row in
          set_modifiedCells
            (js_set (cellKey productId monthKey) monthData' (modifiedCells s))
            (set_pivotedData (<[i := row']> (pivotedData s)) s)
      end
  end.

(** The cell of a list of rows at [(productId, monthKey)]: the row is
    looked up as [updateCell] does. *)
Definition cellIn (productId monthKey : string)
    (rows : list PivotedProductRow.t) : option MonthData.t :=
  match findRow productId rows with
  | Some (_, row) => PivotedProductRow.months row !! monthKey
  | None => None
  end.

(** The cell the grid shows at [(productId, monthKey)]. *)
Definition cellAt (productId monthKey : string) (s : Store)
    : option MonthData.t :=
  cellIn productId monthKey (pivotedData s).

(** An edit, as the arguments of one [updateCell] call. *)
Record Edit : Type := mkEdit {
  e_productId : string;
  e_monthKey : string;
  e_field : MonthDataKey;
  e_value : Z
}.

Definition applyEdit (s : Store) (e : Edit) : Store :=
  updateCell (e_productId e) (e_monthKey e) (e_field e) (e_value e) s.

Definition applyEdits (es : list Edit) (s : Store) : Store :=
  foldl applyEdit s es.

(* ===================================================================== *)
(** ** Fetching *)
(* ===================================================================== *)

Definition fetchMasterData
    (productResp : response (list MasterProduct.t))
    (regionResp : response (list MasterRegion.t))
    (s : Store) : Store * list request :=
  let s1 := set_error None (set_isLoading true s) in
  match resp_error productResp with
  | Some e =>
      (set_isLoading false
         (set_error (Some (error_message e "Failed to fetch master data")) s1),
       [SelectProducts])
  | None =>
      let s2 := set_products (default [] (resp_data productResp)) s1 in
      match resp_error regionResp with
      | Some e =>
          (set_isLoading false
             (set_error
                (Some (error_message e "Failed to fetch master data")) s2),
           [SelectProducts; SelectRegions])
      | None =>
          (set_isLoading false
             (set_regions (default [] (resp_data regionResp)) s2),
           [SelectProducts; SelectRegions])
      end
  end.

Definition initialize := fetchMasterData.

Definition fetchSalesPlans (resp : response (list SalesPlanDetail.t))
    (s : Store) : Store * list request :=
  let f := currentFilter s in
  if negb (truthy (PlanningFilter.region_id f)) then
    (set_pivotedData [] (set_salesPlanDetails [] s), [])
  else
    let s1 := set_error None (set_isLoading true s) in
    let year := PlanningFilter.year f in
    let startDate :=
      pretty year +:+ "-"
        +:+ padStart2 (pretty (PlanningFilter.startMonth f)) +:+ "-01" in
    let endDate :=
      pretty year +:+ "-"
        +:+ padStart2 (pretty (PlanningFilter.endMonth f)) +:+ "-01" in
    let query :=
      SelectSalesPlans (default "" (PlanningFilter.region_id f))
                       startDate endDate (PlanningFilter.kategori f) in
    match resp_error resp with
    | Some e =>
        (set_isLoading false
           (set_error (Some (error_message e "Failed to fetch sales plans")) s1),
         [query])
    | None =>
        (set_isLoading false
           (transformToPivotedData
              (set_salesPlanDetails (default [] (resp_data resp)) s1)),
         [query])
    end.

(* ===================================================================== *)
(** ** Commit, discard, filter *)
(* ===================================================================== *)

(** Body of the loop over [modifiedCells]: the record pushed for one
    entry, or [None] where the loop [continue]s. *)
Definition upsertRecordOf (region_id : option string)
    (entry : string * MonthData.t) : option UpsertRecord.t :=
  let '(key, monthData) := entry in
  let parts := split "_"%char key in
  let productId := parts !! 0%nat in
  if negb (truthy region_id) || negb (truthy productId) then None
  else
    Some {| UpsertRecord.product_id := default "" productId;
            UpsertRecord.region_id := default "" region_id;
            UpsertRecord.bulan_tahun := MonthData.bulan_tahun monthData;
            UpsertRecord.target_jual := MonthData.target_jual monthData;
            UpsertRecord.estimasi_jual := MonthData.estimasi_jual monthData;
            UpsertRecord.realisasi_sales := MonthData.realisasi_sales monthData;
            UpsertRecord.stok_awal := MonthData.stok_awal monthData;
            UpsertRecord.stok_akhir := MonthData.stok_akhir monthData;
            UpsertRecord.order_qty := MonthData.order_qty monthData;
            UpsertRecord.ito := MonthData.ito monthData;
            UpsertRecord.id :=
              if truthy (MonthData.id monthData) then MonthData.id monthData
              else None |}.

(** The array [upsertData] that [saveChanges] builds. *)
Definition upsertData (s : Store) : list UpsertRecord.t :=
  omap (upsertRecordOf (PlanningFilter.region_id (currentFilter s)))
       (modifiedCells s).

(** [upsertResp] is the [error] of the upsert answer; [fetchResp] is the
    answer to the query that [fetchSalesPlans] sends afterwards. *)
Definition saveChanges (upsertResp : option thrown)
    (fetchResp : response (list SalesPlanDetail.t))
    (s : Store) : Store * list request :=
  if negb (hasUnsavedChanges s) then (s, [])
  else
    let s1 := set_error None (set_isSaving true s) in
    let batch := UpsertSalesPlans (upsertData s1) in
    match upsertResp with
    | Some e =>
        (set_isSaving false
           (set_error (Some (error_message e "Failed to save changes")) s1),
         [batch])
    | None =>
        let s2 := set_modifiedCells [] s1 in
        let '(s3, reqs) := fetchSalesPlans fetchResp s2 in
        (set_isSaving false s3, batch :: reqs)
    end.

Definition discardChanges (s : Store) : Store :=
  transformToPivotedData (set_modifiedCells [] s).

(** [{ ...currentFilter.value, ...filter }]. *)
Definition mergeFilter (cur : PlanningFilter.t) (p : PartialFilter.t)
    : PlanningFilter.t :=
  {| PlanningFilter.region_id :=
       default (PlanningFilter.region_id cur) (PartialFilter.region_id p);
     PlanningFilter.kategori :=
       default (PlanningFilter.kategori cur) (PartialFilter.kategori p);
     PlanningFilter.year :=
       default (PlanningFilter.year cur) (PartialFilter.year p);
     PlanningFilter.startMonth :=
       default (PlanningFilter.startMonth cur) (PartialFilter.startMonth p);
     PlanningFilter.endMonth :=
       default (PlanningFilter.endMonth cur) (PartialFilter.endMonth p) |}.

Definition setFilter (filter : PartialFilter.t)
    (fetchResp : response (list SalesPlanDetail.t))
    (s : Store) : Store * list request :=
  let s1 := set_currentFilter (mergeFilter (currentFilter s) filter) s in
  if truthy (PlanningFilter.region_id (currentFilter s1)) then
    fetchSalesPlans fetchResp s1
  else (s1, []).

(* ===================================================================== *)
(** ** Vocabulary of the specification *)
(* ===================================================================== *)

(** Does the string contain an underscore? *)
Fixpoint has_underscore (s : string) : bool :=
  match s with
  | EmptyString => false
  | String c s' => Ascii.eqb c "_"%char || has_underscore s'
  end.

(** [monthData[k]], as a tagged value. *)
Inductive FieldValue : Type :=
  | V_nullable (o : option string)
  | V_string (x : string)
  | V_number (z : Z)
  | V_boolean (b : bool).

Definition readField (k : MonthDataKey) (c : MonthData.t) : FieldValue :=
  match k with
  | K_id => V_nullable (MonthData.id c)
  | K_bulan_tahun => V_string (MonthData.bulan_tahun c)
  | K_bulan_label => V_string (MonthData.bulan_label c)
  | K_target_jual => V_number (MonthData.target_jual c)
  | K_estimasi_jual => V_number (MonthData.estimasi_jual c)
  | K_realisasi_sales => V_number (MonthData.realisasi_sales c)
  | K_stok_awal => V_number (MonthData.stok_awal c)
  | K_stok_akhir => V_number (MonthData.stok_akhir c)
  | K_order_qty => V_number (MonthData.order_qty c)
  | K_ito => V_number (MonthData.ito c)
  | K_isModified => V_boolean (MonthData.isModified c)
  end.


(** A synthesised cell: every quantity zero, no identifier, unmodified. *)
Definition isZeroCell (c : MonthData.t) : Prop :=
  MonthData.id c = None
  ∧ MonthData.target_jual c = 0 ∧ MonthData.estimasi_jual c = 0
  ∧ MonthData.realisasi_sales c = 0 ∧ MonthData.stok_awal c = 0
  ∧ MonthData.stok_akhir c = 0 ∧ MonthData.order_qty c = 0
  ∧ MonthData.ito c = 0 ∧ MonthData.isModified c = false.

(** The product a row displays. *)
Definition rowProduct (r : PivotedProductRow.t) : MasterProduct.t :=
  {| MasterProduct.id := PivotedProductRow.product_id r;
     MasterProduct.kode_barang := PivotedProductRow.kode_barang r;
     MasterProduct.nama_produk := PivotedProductRow.nama_produk r;
     MasterProduct.tipe := PivotedProductRow.tipe r;
     MasterProduct.kategori := PivotedProductRow.kategori r;
     MasterProduct.std_pallet := PivotedProductRow.std_pallet r;
     MasterProduct.isi_dus := PivotedProductRow.isi_dus r |}.





(** The (product, month) position a planning record is pivoted to. *)
Definition planPosition (plan : SalesPlanDetail.t) : string * string :=
  (SalesPlanDetail.product_id plan,
   substring07 (SalesPlanDetail.bulan_tahun plan)).

(** The month keys of the requested range. *)
Definition monthKeys (f : PlanningFilter.t) : list string :=
  MonthColumn.key <$> monthColumns f.

(** The cell an edit addresses. *)
Definition editTarget (e : Edit) : string * string :=
  (e_productId e, e_monthKey e).

(** The write record of a tracker entry whose key names product [pid],
    under region [rid]. *)
Definition writeRecord (pid rid : string) (c : MonthData.t) : UpsertRecord.t :=
  {| UpsertRecord.id :=
       if truthy (MonthData.id c) then MonthData.id c else None;
     UpsertRecord.product_id := pid;
     UpsertRecord.region_id := rid;
     UpsertRecord.bulan_tahun := MonthData.bulan_tahun c;
     UpsertRecord.target_jual := MonthData.target_jual c;
     UpsertRecord.estimasi_jual := MonthData.estimasi_jual c;
     UpsertRecord.realisasi_sales := MonthData.realisasi_sales c;
     UpsertRecord.stok_awal := MonthData.stok_awal c;
     UpsertRecord.stok_akhir := MonthData.stok_akhir c;
     UpsertRecord.order_qty := MonthData.order_qty c;
     UpsertRecord.ito := MonthData.ito c |}.

(** States the exported actions of the store can produce. *)
Inductive reachable : Store → Prop :=
  | reach_initial thisYear :
      reachable (initialStore thisYear)
  | reach_fetchMasterData s productResp regionResp :
      reachable s → reachable (fetchMasterData productResp regionResp s).1
  | reach_fetchSalesPlans s resp :
      reachable s → reachable (fetchSalesPlans resp s).1
  | reach_updateCell s productId monthKey field value :
      reachable s → reachable (updateCell productId monthKey field value s)
  | reach_saveChanges s upsertResp fetchResp :
      reachable s → reachable (saveChanges upsertResp fetchResp s).1
  | reach_discardChanges s :
      reachable s → reachable (discardChanges s)
  | reach_setFilter s filter fetchResp :
      reachable s → reachable (setFilter filter fetchResp s).1.

(** Invariant of the reachable states: month keys carry no underscore and
    the tracker has one entry per key. *)
Definition monthKeysClean (rows : list PivotedProductRow.t) : Prop :=
  ∀ row mk, row ∈ rows → is_Some (PivotedProductRow.months row !! mk) →
    has_underscore mk = false.

Definition storeInv (s : Store) : Prop :=
  monthKeysClean (pivotedData s) ∧ NoDup (js_keys (modifiedCells s)).

(** A row carries the product id it is stored under and one cell per
    column key. *)
Definition rowWf (cols : list MonthColumn.t)
    (kv : string * PivotedProductRow.t) : Prop :=
  PivotedProductRow.product_id kv.2 = kv.1
  ∧ ∀ mk, is_Some (PivotedProductRow.months kv.2 !! mk)
          ↔ mk ∈ MonthColumn.key <$> cols.

(** What the second loop does to the row of product [p]. *)
Definition fillRows (p : string) (plans : list SalesPlanDetail.t)
    (row : PivotedProductRow.t) : PivotedProductRow.t :=
  foldl (fun r plan =>
           if decide (SalesPlanDetail.product_id plan = p)
           then fillRow plan r else r) row plans.


(** The [productMap] at the end of [transformToPivotedData]. *)
Definition pivotMap (f : PlanningFilter.t) (ps : list MasterProduct.t)
    (plans : list SalesPlanDetail.t) : JsMap PivotedProductRow.t :=
  foldl fillPlan (initRows f (monthColumns f) (filteredProducts f ps)) plans.

(** The ids of the products that pass the category filter. *)
Definition candidateIds (f : PlanningFilter.t)
    (ps : list MasterProduct.t) : list string :=
  MasterProduct.id <$> filteredProducts f ps.

(* ===================================================================== *)
(** ** The scenario of the specification, and other sample stores *)
(* ===================================================================== *)

(** Product P1 (category AMB), region R1, January to March 2026, one
    planning record for January. *)
Definition demoProduct : MasterProduct.t :=
  MasterProduct.mk "P1" "YUAMF.001" (Some "Yuasa MF") "NS-40-ZL" AMB 0 0.

Definition demoPlan : SalesPlanDetail.t :=
  {| SalesPlanDetail.id := "plan-1";
     SalesPlanDetail.bulan_tahun := "2026-01-01";
     SalesPlanDetail.bulan_label := "Jan 2026";
     SalesPlanDetail.product_id := "P1";
     SalesPlanDetail.region_kode := "JTM";
     SalesPlanDetail.target_jual := 0;
     SalesPlanDetail.estimasi_jual := 60;
     SalesPlanDetail.realisasi_sales := 0;
     SalesPlanDetail.stok_awal := 100;
     SalesPlanDetail.stok_akhir := 90;
     SalesPlanDetail.order_qty := 50;
     SalesPlanDetail.ito := 0 |}.

Definition demoRange : PartialFilter.t :=
  PartialFilter.mk (Some (Some "R1")) None (Some 2026) (Some 1) (Some 3).

(** After [initialize()]. *)
Definition demoLoaded : Store :=
  (initialize (Response (Some [demoProduct]) None)
              (Response (Some []) None) (initialStore 2026)).1.

(** After [setFilter] with the range above and a fetch that succeeds. *)
Definition demoStore : Store :=
  (setFilter demoRange (Response (Some [demoPlan]) None) demoLoaded).1.

(** After editing February's opening stock to 40. *)
Definition demoEdited : Store :=
  updateCell "P1" "2026-02" K_stok_awal 40 demoStore.

(** After the region is deselected with the edit still pending. *)
Definition demoNoRegion : Store :=
  (setFilter (PartialFilter.mk (Some None) None None None None)
             (Response None None) demoEdited).1.



Definition demoFilter : PlanningFilter.t :=
  PlanningFilter.mk (Some "R1") None 2026 1 3.

(** A fetch that fails. *)
Definition failedFetch : response (list SalesPlanDetail.t) :=
  Response None (Some (ErrorObject "network down")).

(* ===================================================================== *)
(** ** The remaining getters of the planning store *)
(* ===================================================================== *)

(** [regions.value.filter(r => r.is_active)]. *)
Definition activeRegions (s : Store) : list MasterRegion.t :=
  filter (fun r => MasterRegion.is_active r = true) (regions s).

(** The object [{ AMB: ..., MCB: ... }] of [productsByCategory]. *)
Module ProductsByCategory.
Record t : Type := mk {
  AMB : list MasterProduct.t;
  MCB : list MasterProduct.t
}.
End ProductsByCategory.

Definition productsByCategory (s : Store) : ProductsByCategory.t :=
  {| ProductsByCategory.AMB :=
       filter (fun p => MasterProduct.kategori p = AMB) (products s);
     ProductsByCategory.MCB :=
       filter (fun p => MasterProduct.kategori p = MCB) (products s) |}.

(** The text of a tracker key before its first underscore. *)
Fixpoint beforeUnderscore (s : string) : string :=
  match s with
  | EmptyString => ""
  | String c s' =>
      if Ascii.eqb c "_"%char then "" else String c (beforeUnderscore s')
  end.

(* ===================================================================== *)
(** ** The user store (useUserStore) *)
(* ===================================================================== *)

(** ['admin' | 'user']. *)
Inductive Role : Type := admin | user.

Module UserProfile.
Record t : Type := mk {
  id : string;
  email : string;
  name : option string;
  role : Role;
  is_active : bool;
  created_at : string;
  updated_at : string
}.
End UserProfile.

(** [Partial<UserProfile>]: a property that is absent is [None]. *)
Module PartialUserProfile.
Record t : Type := mk {
  id : option string;
  email : option string;
  name : option (option string);
  role : option Role;
  is_active : option bool;
  created_at : option string;
  updated_at : option string
}.
End PartialUserProfile.

Module CreateUserData.
Record t : Type := mk {
  email : string;
  password : string;
  name : string;
  role : Role
}.
End CreateUserData.

(** The reactive state of the user store. *)
Module UserStore.
Record t : Type := mk {
  users : list UserProfile.t;
  isLoading : bool;
  error : option string
}.
End UserStore.

(** The JSON body the [create-user] function answers with. *)
Module CreateUserResult.
Record t : Type := mk {
  success : bool;
  error : option string
}.
End CreateUserResult.

(** Requests of the user store.  [UpdateUserProfile] carries the four
    columns of the [update] call, [name], [role] and [is_active] as they
    are read from [updates] (absent when [updates] lacks them). *)
Inductive userRequest : Type :=
  | SelectUsers
  | GetSession
  | PostCreateUser (accessToken : string) (body : CreateUserData.t)
  | UpdateUserProfile (userId : string) (name : option (option string))
                      (role : option Role) (is_active : option bool)
                      (updated_at : string)
  | DeleteUserProfile (userId : string).

Definition fetchUsers (resp : response (list UserProfile.t))
    (s : UserStore.t) : UserStore.t * list userRequest :=
  match resp_error resp with
  | Some e =>
      (UserStore.mk (UserStore.users s) false
         (Some (error_message e "Failed to fetch users")),
       [SelectUsers])
  | None =>
      (UserStore.mk (default [] (resp_data resp)) false None, [SelectUsers])
  end.

(** [session] is the session [getSession] answers with ([None] for
    [null]), as its access token; [http] is what the [fetch] of the edge
    function and [response.json()] produce, a thrown value or the parsed
    body; [refresh] is the answer to the [fetchUsers] that follows. *)
Definition createUser (userData : CreateUserData.t)
    (session : option string)
    (http : thrown + CreateUserResult.t)
    (refresh : response (list UserProfile.t))
    (s : UserStore.t) : UserStore.t * bool * list userRequest :=
  let failed (msg : string) (reqs : list userRequest) :=
    (UserStore.mk (UserStore.users s) false (Some msg), false, reqs) in
  match session with
  | None => failed "Not authenticated" [GetSession]
  | Some token =>
      let post := PostCreateUser token userData in
      match http with
      | inl e =>
          failed (error_message e "Failed to create user") [GetSession; post]
      | inr result =>
          if negb (CreateUserResult.success result) then
            failed (if truthy (CreateUserResult.error result)
                    then default "" (CreateUserResult.error result)
                    else "Failed to create user")
                   [GetSession; post]
          else
            let s1 := UserStore.mk (UserStore.users s) true None in
            let '(s2, reqs) := fetchUsers refresh s1 in
            (UserStore.mk (UserStore.users s2) false (UserStore.error s2),
             true, ([GetSession; post] ++ reqs)%list)
      end
  end.

(** [{ ...users.value[index], ...updates }]. *)
Definition mergeUser (u : UserProfile.t) (updates : PartialUserProfile.t)
    : UserProfile.t :=
  {| UserProfile.id := default (UserProfile.id u) (PartialUserProfile.id updates);
     UserProfile.email :=
       default (UserProfile.email u) (PartialUserProfile.email updates);
     UserProfile.name :=
       default (UserProfile.name u) (PartialUserProfile.name updates);
     UserProfile.role :=
       default (UserProfile.role u) (PartialUserProfile.role updates);
     UserProfile.is_active :=
       default (UserProfile.is_active u) (PartialUserProfile.is_active updates);
     UserProfile.created_at :=
       default (UserProfile.created_at u)
               (PartialUserProfile.created_at updates);
     UserProfile.updated_at :=
       default (UserProfile.updated_at u)
               (PartialUserProfile.updated_at updates) |}.

(** [now] is [new Date().toISOString()]; [respError] is the [error] of
    the answer to the update. *)
Definition updateUser (userId : string) (updates : PartialUserProfile.t)
    (now : string) (respError : option thrown)
    (s : UserStore.t) : UserStore.t * bool * list userRequest :=
  let req :=
    UpdateUserProfile userId (PartialUserProfile.name updates)
      (PartialUserProfile.role updates) (PartialUserProfile.is_active updates)
      now in
  match respError with
  | Some e =>
      (UserStore.mk (UserStore.users s) false
         (Some (error_message e "Failed to update user")), false, [req])
  | None =>
      let users' :=
        match list_find (fun u => UserProfile.id u = userId)
                        (UserStore.users s) with
        | Some (index, u) => <[index := mergeUser u updates]> (UserStore.users s)
        | None => UserStore.users s
        end in
      (UserStore.mk users' false None, true, [req])
  end.

Definition deleteUser (userId : string) (respError : option thrown)
    (s : UserStore.t) : UserStore.t * bool * list userRequest :=
  match respError with
  | Some e =>
      (UserStore.mk (UserStore.users s) false
         (Some (error_message e "Failed to delete user")), false,
       [DeleteUserProfile userId])
  | None =>
      (UserStore.mk
         (filter (fun u => UserProfile.id u ≠ userId) (UserStore.users s))
         false None,
       true, [DeleteUserProfile userId])
  end.

(** One call of an action of the user store, with the answers it
    awaits. *)
Inductive UserAction : Type :=
  | DoFetchUsers (resp : response (list UserProfile.t))
  | DoCreateUser (userData : CreateUserData.t) (session : option string)
                 (http : thrown + CreateUserResult.t)
                 (refresh : response (list UserProfile.t))
  | DoUpdateUser (userId : string) (updates : PartialUserProfile.t)
                 (now : string) (respError : option thrown)
  | DoDeleteUser (userId : string) (respError : option thrown).

(** The store after the call and the value its promise resolves to
    ([None] for the [undefined] of [fetchUsers]). *)
Definition runUserAction (s : UserStore.t) (a : UserAction)
    : UserStore.t * option bool :=
  match a with
  | DoFetchUsers resp => ((fetchUsers resp s).1, None)
  | DoCreateUser userData session http refresh =>
      let out := createUser userData session http refresh s in
      (out.1.1, Some out.1.2)
  | DoUpdateUser userId updates now respError =>
      let out := updateUser userId updates now respError s in
      (out.1.1, Some out.1.2)
  | DoDeleteUser userId respError =>
      let out := deleteUser userId respError s in
      (out.1.1, Some out.1.2)
  end.

(* ===================================================================== *)
(** ** Vocabulary of the further properties *)
(* ===================================================================== *)

(** The tracker agrees with the grid: a cell has an entry, equal to the
    cell, exactly when it is marked modified. *)
Definition trackerMatchesGrid (s : Store) : Prop :=
  ∀ p mk c, cellAt p mk s = Some c →
    js_get (cellKey p mk) (modifiedCells s)
    = if MonthData.isModified c then Some c else None.

(** One call of an exported action of the planning store, with the
    answers of the backend it awaits. *)
Inductive Action : Type :=
  | DoFetchMasterData (productResp : response (list MasterProduct.t))
                      (regionResp : response (list MasterRegion.t))
  | DoFetchSalesPlans (resp : response (list SalesPlanDetail.t))
  | DoUpdateCell (productId monthKey : string) (field : MonthDataKey)
                 (value : Z)
  | DoSaveChanges (upsertResp : option thrown)
                  (fetchResp : response (list SalesPlanDetail.t))
  | DoDiscardChanges
  | DoSetFilter (filter : PartialFilter.t)
                (fetchResp : response (list SalesPlanDetail.t)).

Definition runAction (s : Store) (a : Action) : Store :=
  match a with
  | DoFetchMasterData productResp regionResp =>
      (fetchMasterData productResp regionResp s).1
  | DoFetchSalesPlans resp => (fetchSalesPlans resp s).1
  | DoUpdateCell productId monthKey field value =>
      updateCell productId monthKey field value s
  | DoSaveChanges upsertResp fetchResp =>
      (saveChanges upsertResp fetchResp s).1
  | DoDiscardChanges => discardChanges s
  | DoSetFilter filter fetchResp => (setFilter filter fetchResp s).1
  end.

Definition runActions (s : Store) (acts : list Action) : Store :=
  foldl runAction s acts.

(** A discard, or a commit whose upsert succeeds. *)
Definition clearsTracker (a : Action) : bool :=
  match a with
  | DoDiscardChanges => true
  | DoSaveChanges None _ => true
  | _ => false
  end.

(** The partial filter of [setFilter({ kategori })]. *)
Definition onlyKategori (k : option ProductCategory) : PartialFilter.t :=
  PartialFilter.mk None (Some k) None None None.

(** The planning records of a product, whatever their month. *)
Definition plansOf (pid : string) (plans : list SalesPlanDetail.t)
    : list SalesPlanDetail.t :=
  filter (fun plan => SalesPlanDetail.product_id plan = pid) plans.

(** Sample data of the further properties: three products of two
    categories, and a filter whose range is empty. *)
Definition mixedProducts : list MasterProduct.t :=
  [MasterProduct.mk "id-a" "A" None "type-a" AMB 0 0;
   MasterProduct.mk "id-m" "M" None "type-m" MCB 0 0;
   MasterProduct.mk "id-b" "B" None "type-b" AMB 0 0].



(** Sample data of the user store: two users, and an update that only
    renames. *)
Definition demoUsers : list UserProfile.t :=
  [UserProfile.mk "u1" "a@example.org" (Some "A") admin true "t0" "t0";
   UserProfile.mk "u2" "b@example.org" None user true "t1" "t1"].

Definition demoUserStore : UserStore.t := UserStore.mk demoUsers false None.

Definition renameOnly : PartialUserProfile.t :=
  PartialUserProfile.mk None None (Some (Some "B")) None None None None.

(* ===================================================================== *)
(** ** Lemmas on the JavaScript helpers *)
(* ===================================================================== *)

Section js_map.
Context {V : Type}.
Implicit Types (m : JsMap V) (k : string) (v : V).

Lemma js_get_set_eq k v m : js_get k (js_set k v m) = Some v.
Proof.
  induction m as [|[k' v'] m IH]; simpl.
  - by rewrite String.eqb_refl.
  - destruct (String.eqb k' k) eqn:E; simpl.
    + by rewrite String.eqb_refl.
    + by rewrite E.
Qed.

Lemma js_get_set_ne k k' v m :
  k ≠ k' → js_get k' (js_set k v m) = js_get k' m.
Proof.
  intros Hne. induction m as [|[k0 v0] m IH]; simpl.
  - by apply String.eqb_neq in Hne as ->.
  - destruct (String.eqb k0 k) eqn:E; simpl.
    + apply String.eqb_eq in E as ->.
      by apply String.eqb_neq in Hne as ->.
    + by rewrite IH.
Qed.

Lemma js_get_None k m : js_get k m = None ↔ k ∉ js_keys m.
Proof.
  unfold js_keys. induction m as [|[k' v'] m IH]; simpl.
  - split; [intros _; apply not_elem_of_nil | done].
  - rewrite not_elem_of_cons. destruct (String.eqb k' k) eqn:E.
    + apply String.eqb_eq in E. split; [done | intros [? _]; congruence].
    + apply String.eqb_neq in E. rewrite IH. split; [split; [congruence|done] | by intros [_ ?]].
Qed.

Lemma js_get_Some_elem k v m : js_get k m = Some v → (k, v) ∈ m.
Proof.
  induction m as [|[k' v'] m IH]; simpl; [done|].
  destruct (String.eqb k' k) eqn:E.
  - apply String.eqb_eq in E as ->. intros [= ->]. left.
  - intros ?. right. auto.
Qed.

Lemma js_keys_set_present k v m :
  k ∈ js_keys m → js_keys (js_set k v m) = js_keys m.
Proof.
  unfold js_keys. induction m as [|[k' v'] m IH]; simpl.
  - by intros ?%elem_of_nil.
  - destruct (String.eqb k' k) eqn:E; simpl.
    + apply String.eqb_eq in E as ->. done.
    + apply String.eqb_neq in E. intros [?|?]%elem_of_cons; [congruence|].
      f_equal. by apply IH.
Qed.

Lemma js_keys_set_fresh k v m :
  k ∉ js_keys m → js_keys (js_set k v m) = (js_keys m ++ [k])%list.
Proof.
  unfold js_keys. induction m as [|[k' v'] m IH]; simpl; [done|].
  rewrite not_elem_of_cons. intros [Hne Hnin].
  assert (String.eqb k' k = false) as -> by (apply String.eqb_neq; congruence).
  simpl. f_equal. by apply IH.
Qed.

Lemma js_keys_set_NoDup k v m :
  NoDup (js_keys m) → NoDup (js_keys (js_set k v m)).
Proof.
  intros Hnd. destruct (decide (k ∈ js_keys m)) as [Hin|Hnin].
  - by rewrite js_keys_set_present.
  - rewrite js_keys_set_fresh by done.
    apply NoDup_app. split_and!; [done | | apply NoDup_singleton].
    intros x Hx ->%list_elem_of_singleton. done.
Qed.

Lemma js_set_elem k v m : (k, v) ∈ js_set k v m.
Proof. apply js_get_Some_elem, js_get_set_eq. Qed.

(** With one entry per key, the entries under [k] are exactly what
    [js_get] returns. *)
Lemma js_filter_key k v m :
  NoDup (js_keys m) → js_get k m = Some v →
  List.filter (fun kv => String.eqb kv.1 k) m = [(k, v)].
Proof.
  unfold js_keys. induction m as [|[k' v'] m IH]; simpl; [done|].
  intros [Hnin Hnd]%NoDup_cons. destruct (String.eqb k' k) eqn:E.
  - apply String.eqb_eq in E as ->. intros [= ->]. f_equal.
    clear IH Hnd. induction m as [|[k2 v2] m IH]; simpl; [done|].
    simpl in Hnin. apply not_elem_of_cons in Hnin as [Hne Hnin].
    assert (String.eqb k2 k = false) as -> by (apply String.eqb_neq; congruence).
    auto.
  - auto.
Qed.

Lemma js_set_fresh k v m :
  k ∉ js_keys m → js_set k v m = (m ++ [(k, v)])%list.
Proof.
  unfold js_keys. induction m as [|[k' v'] m IH]; simpl; [done|].
  rewrite not_elem_of_cons. intros [Hne Hnin].
  assert (String.eqb k' k = false) as -> by (apply String.eqb_neq; congruence).
  f_equal. by apply IH.
Qed.

Lemma js_keys_set_elem x k v m :
  x ∈ js_keys (js_set k v m) ↔ x = k ∨ x ∈ js_keys m.
Proof.
  destruct (decide (k ∈ js_keys m)) as [Hin|Hnin].
  - rewrite js_keys_set_present by done. intuition congruence.
  - rewrite js_keys_set_fresh, elem_of_app, list_elem_of_singleton by done.
    tauto.
Qed.


Lemma js_set_Forall (P : string * V → Prop) k v m :
  Forall P m → P (k, v) → Forall P (js_set k v m).
Proof.
  intros Hm Hv. induction Hm as [|[k' v'] m IH]; simpl.
  - by constructor.
  - destruct (String.eqb k' k); constructor; auto.
Qed.


Lemma js_get_is_Some k m : is_Some (js_get k m) ↔ k ∈ js_keys m.
Proof.
  rewrite <- not_eq_None_Some, js_get_None.
  destruct (decide (k ∈ js_keys m)); tauto.
Qed.
End js_map.

(** *** Strings *)

Lemma has_underscore_app s1 s2 :
  has_underscore (s1 +:+ s2) = has_underscore s1 || has_underscore s2.
Proof.
  induction s1 as [|c s1 IH]; simpl; [done|].
  rewrite IH. by rewrite orb_assoc.
Qed.

Lemma has_underscore_pretty_N_go (x : N) (s : string) :
  has_underscore s = false → has_underscore (pretty_N_go x s) = false.
Proof.
  revert s. induction (N.lt_wf_0 x) as [x _ IH]; intros s Hs.
  destruct (decide (x = 0%N)) as [->|Hx].
  - by rewrite pretty_N_go_0.
  - rewrite pretty_N_go_step by lia. apply IH.
    + apply N.div_lt; lia.
    + simpl. rewrite Hs. unfold pretty_N_char. by repeat case_match.
Qed.

Lemma has_underscore_pretty_N (x : N) : has_underscore (pretty x) = false.
Proof.
  unfold pretty, pretty_N. case_decide; [done|].
  by apply has_underscore_pretty_N_go.
Qed.

Lemma has_underscore_pretty_Z (z : Z) : has_underscore (pretty z) = false.
Proof.
  destruct z as [|p|p]; unfold pretty, pretty_Z; [done| |].
  - apply has_underscore_pretty_N.
  - rewrite has_underscore_app. simpl.
    apply (has_underscore_pretty_N (N.pos p)).
Qed.

Lemma has_underscore_padStart2 s :
  has_underscore s = false → has_underscore (padStart2 s) = false.
Proof.
  intros Hs. unfold padStart2.
  destruct (String.length s) as [|[|n]]; [done| |done].
  by rewrite has_underscore_app, Hs.
Qed.

Lemma has_underscore_monthKey (year m : Z) :
  has_underscore (MonthColumn.key (monthColumn year m)) = false.
Proof.
  simpl. rewrite !has_underscore_app, has_underscore_pretty_Z.
  by rewrite has_underscore_padStart2 by apply has_underscore_pretty_Z.
Qed.

(** The key of a cell determines the cell when the month key has no
    underscore: the month key is what follows the last underscore. *)
Lemma cellKey_inj p1 m1 p2 m2 :
  has_underscore m1 = false → has_underscore m2 = false →
  cellKey p1 m1 = cellKey p2 m2 → p1 = p2 ∧ m1 = m2.
Proof.
  unfold cellKey. intros H1 H2. revert p2.
  induction p1 as [|c p1 IH]; intros [|c2 p2].
  - intros Heq. change (String "_" m1 = String "_" m2) in Heq.
    by injection Heq as ->.
  - intros Heq. change (String "_" m1 = String c2 (p2 +:+ "_" +:+ m2)) in Heq.
    injection Heq as <- ->. rewrite has_underscore_app in H1. simpl in H1.
    by rewrite orb_true_r in H1.
  - intros Heq. change (String c (p1 +:+ "_" +:+ m1) = String "_" m2) in Heq.
    injection Heq as -> <-. rewrite has_underscore_app in H2. simpl in H2.
    by rewrite orb_true_r in H2.
  - intros Heq.
    change (String c (p1 +:+ "_" +:+ m1) = String c2 (p2 +:+ "_" +:+ m2)) in Heq.
    injection Heq as -> Heq. apply IH in Heq as [-> ->]. done.
Qed.

(** [key.split('_')[0]] gives back a product id without underscore. *)
Lemma split_cellKey pid mk :
  has_underscore pid = false →
  split "_"%char (cellKey pid mk) !! 0%nat = Some pid.
Proof.
  unfold cellKey. induction pid as [|c pid IH]; simpl; [done|].
  intros [Hc Hpid]%orb_false_elim. rewrite Hc.
  specialize (IH Hpid). destruct (split _ _) as [|p ps]; simpl in *; [done|].
  by injection IH as ->.
Qed.

Lemma truthy_Some s : s ≠ "" → truthy (Some s) = true.
Proof. intros Hs. simpl. by apply String.eqb_neq in Hs as ->. Qed.

Lemma truthy_true x : truthy x = true → ∃ s, x = Some s ∧ s ≠ "".
Proof.
  destruct x as [s|]; simpl; [|done]. intros H. exists s. split; [done|].
  intros ->. done.
Qed.

(* ===================================================================== *)
(** ** Lemmas on the cell editor *)
(* ===================================================================== *)

Lemma findRow_Some p rows i row :
  findRow p rows = Some (i, row) →
  rows !! i = Some row ∧ PivotedProductRow.product_id row = p.
Proof. unfold findRow. intros (? & ? & _)%list_find_Some. done. Qed.


(** Replacing a row by one with the same product id moves no row. *)
Lemma findRow_insert p rows i row row' :
  rows !! i = Some row →
  PivotedProductRow.product_id row' = PivotedProductRow.product_id row →
  findRow p (<[i:=row']> rows)
  = (fun jr : nat * PivotedProductRow.t =>
       (jr.1, if decide (jr.1 = i) then row' else jr.2)) <$> findRow p rows.
Proof.
  unfold findRow. revert i.
  induction rows as [|r rows IH]; intros i Hi Hid; [done|].
  destruct i as [|i]; simpl in Hi.
  - injection Hi as ->. csimpl. rewrite Hid.
    case_decide; [done|].
    destruct (list_find _ rows) as [[j r]|]; [|done]. done.
  - csimpl. case_decide; [done|].
    rewrite (IH i Hi Hid).
    destruct (list_find _ rows) as [[j r']|]; [|done]. csimpl.
    f_equal. f_equal. repeat case_decide; done || lia.
Qed.

Lemma cellIn_insert p mk rows i row row' :
  findRow (PivotedProductRow.product_id row) rows = Some (i, row) →
  PivotedProductRow.product_id row' = PivotedProductRow.product_id row →
  cellIn p mk (<[i:=row']> rows)
  = if decide (p = PivotedProductRow.product_id row)
    then PivotedProductRow.months row' !! mk
    else cellIn p mk rows.
Proof.
  intros Hfind Hid. pose proof (findRow_Some _ _ _ _ Hfind) as [Hi _].
  unfold cellIn. rewrite (findRow_insert p rows i row row' Hi Hid).
  case_decide as Hp.
  - subst p. rewrite Hfind. csimpl. by rewrite decide_True.
  - destruct (findRow p rows) as [[j r]|] eqn:Hj; [|done]. csimpl.
    case_decide as Hji; [|done]. subst j.
    apply findRow_Some in Hj as [Hj Hpj]. congruence.
Qed.

(** The cells of the grid after one [updateCell]. *)
Lemma cellAt_updateCell p mk f v s p' mk' :
  cellAt p' mk' (updateCell p mk f v s)
  = if decide (p' = p ∧ mk' = mk) then editCell f v <$> cellAt p mk s
    else cellAt p' mk' s.
Proof.
  unfold updateCell, cellAt.
  destruct (findRow p (pivotedData s)) as [[i row]|] eqn:Hfind.
  - pose proof (findRow_Some _ _ _ _ Hfind) as [Hi Hp].
    destruct (PivotedProductRow.months row !! mk) as [c|] eqn:Hc.
    + simpl. rewrite <- Hp in Hfind.
      rewrite (cellIn_insert p' mk' (pivotedData s) i row
                 (set_months (<[mk:=editCell f v c]>
                                (PivotedProductRow.months row)) row)
                 Hfind eq_refl).
      rewrite Hp in *.
      unfold cellIn at 2. rewrite Hfind, Hc. simpl.
      destruct (decide (p' = p)) as [->|Hne].
      * destruct (decide (mk' = mk)) as [->|Hmk].
        -- rewrite decide_True by done. by rewrite lookup_insert_eq.
        -- rewrite decide_False by (intros [_ ?]; done).
           rewrite lookup_insert_ne by done.
           unfold cellIn. by rewrite Hfind.
      * rewrite decide_False by (intros [? _]; done). done.
    + case_decide as Heq; [|done]. destruct Heq as [-> ->].
      unfold cellIn. by rewrite Hfind, Hc.
  - case_decide as Heq; [|done]. destruct Heq as [-> ->].
    unfold cellIn. by rewrite Hfind.
Qed.

Lemma updateCell_noop p mk f v s :
  cellAt p mk s = None → updateCell p mk f v s = s.
Proof.
  unfold cellAt, cellIn, updateCell.
  destruct (findRow p (pivotedData s)) as [[i row]|]; [|done].
  by intros ->.
Qed.

(** What a successful [updateCell] leaves in the tracker. *)
Lemma modifiedCells_updateCell p mk f v s c :
  cellAt p mk s = Some c →
  modifiedCells (updateCell p mk f v s)
  = js_set (cellKey p mk) (editCell f v c) (modifiedCells s).
Proof.
  unfold cellAt, cellIn, updateCell.
  destruct (findRow p (pivotedData s)) as [[i row]|]; [|done].
  by intros ->.
Qed.



(** *** The edit of one cell *)



Lemma editCell_isModified f v c : MonthData.isModified (editCell f v c) = true.
Proof. by destruct c, f. Qed.

Lemma editCell_readField_other f v c k :
  k ≠ f → k ≠ K_isModified →
  (triggersRecompute f = true → k ≠ K_stok_akhir) →
  readField k (editCell f v c) = readField k c.
Proof.
  intros Hf Hm Hr.
  destruct c, f, k; try done; by exfalso; apply Hr.
Qed.

Lemma editCell_readField_assigned f v c :
  f ∈ [K_stok_awal; K_order_qty; K_estimasi_jual;
       K_target_jual; K_realisasi_sales; K_ito] →
  readField f (editCell f v c) = V_number v.
Proof.
  intros Hf. destruct c, f; try done; exfalso;
    repeat (apply elem_of_cons in Hf as [?|Hf]; [done|]);
    by apply elem_of_nil in Hf.
Qed.


(* ===================================================================== *)
(** ** Lemmas on the pivot transform *)
(* ===================================================================== *)

(** *** Month columns *)

Lemma emptyMonths_snoc cols col :
  emptyMonths (cols ++ [col])
  = <[MonthColumn.key col :=
        createEmptyMonthData (MonthColumn.date col) (MonthColumn.label col)]>
      (emptyMonths cols).
Proof. unfold emptyMonths. by rewrite foldl_app. Qed.

Lemma emptyMonths_is_Some cols mk :
  is_Some (emptyMonths cols !! mk) ↔ mk ∈ MonthColumn.key <$> cols.
Proof.
  induction cols as [|col cols IH] using rev_ind.
  - unfold emptyMonths. simpl. rewrite lookup_empty, elem_of_nil.
    split; [by intros [? ?] | done].
  - rewrite emptyMonths_snoc, fmap_app, lookup_insert_is_Some, elem_of_app, IH.
    simpl. rewrite list_elem_of_singleton.
    destruct (decide (MonthColumn.key col = mk)); intuition congruence.
Qed.

Lemma emptyMonths_zero cols mk c :
  emptyMonths cols !! mk = Some c → isZeroCell c.
Proof.
  induction cols as [|col cols IH] using rev_ind.
  - unfold emptyMonths. simpl. by rewrite lookup_empty.
  - rewrite emptyMonths_snoc.
    intros [[_ <-]|[_ ?]]%lookup_insert_Some; [|auto].
    unfold isZeroCell. simpl. tauto.
Qed.

Lemma emptyMonths_size cols :
  NoDup (MonthColumn.key <$> cols) →
  size (emptyMonths cols) = List.length cols.
Proof.
  induction cols as [|col cols IH] using rev_ind; [done|].
  rewrite fmap_app, NoDup_app. intros (Hnd & Hdisj & _).
  rewrite emptyMonths_snoc, map_size_insert_None.
  - rewrite length_app, IH by done. simpl. lia.
  - apply eq_None_not_Some. rewrite emptyMonths_is_Some.
    intros Hin. apply (Hdisj _ Hin). simpl. left.
Qed.


Lemma monthKeys_elem f mk :
  mk ∈ monthKeys f ↔
  ∃ m, PlanningFilter.startMonth f ≤ m ≤ PlanningFilter.endMonth f
       ∧ mk = MonthColumn.key (monthColumn (PlanningFilter.year f) m).
Proof.
  unfold monthKeys, monthColumns. rewrite <- list_fmap_compose.
  rewrite list_elem_of_fmap. setoid_rewrite elem_of_seqZ.
  split; intros (m & ? & ?); exists m; split; (done || lia).
Qed.



Lemma monthKeys_clean f mk : mk ∈ monthKeys f → has_underscore mk = false.
Proof. intros (m & _ & ->)%monthKeys_elem. apply has_underscore_monthKey. Qed.

(** *** The first loop: one row per product id *)

Lemma initRows_snoc f cols ps p :
  initRows f cols (ps ++ [p])
  = js_set (MasterProduct.id p) (initialRow f cols p) (initRows f cols ps).
Proof. unfold initRows. by rewrite foldl_app. Qed.

Lemma initRows_keys_elem f cols ps k :
  k ∈ js_keys (initRows f cols ps) ↔ k ∈ MasterProduct.id <$> ps.
Proof.
  induction ps as [|p ps IH] using rev_ind; [done|].
  rewrite initRows_snoc, js_keys_set_elem, fmap_app, elem_of_app, IH.
  simpl. rewrite list_elem_of_singleton. tauto.
Qed.

Lemma initRows_keys_NoDup f cols ps : NoDup (js_keys (initRows f cols ps)).
Proof.
  induction ps as [|p ps IH] using rev_ind; [apply NoDup_nil_2|].
  rewrite initRows_snoc. by apply js_keys_set_NoDup.
Qed.

Lemma initRows_wf f cols ps : Forall (rowWf cols) (initRows f cols ps).
Proof.
  induction ps as [|p ps IH] using rev_ind; [constructor|].
  rewrite initRows_snoc. apply js_set_Forall; [done|].
  split; [done|]. intros mk. simpl. apply emptyMonths_is_Some.
Qed.

Lemma initRows_months f cols ps k row :
  js_get k (initRows f cols ps) = Some row →
  PivotedProductRow.months row = emptyMonths cols.
Proof.
  revert row. induction ps as [|p ps IH] using rev_ind; intros row; [done|].
  rewrite initRows_snoc. destruct (decide (MasterProduct.id p = k)) as [<-|Hne].
  - rewrite js_get_set_eq. by intros [= <-].
  - rewrite js_get_set_ne by done. apply IH.
Qed.

(** With pairwise different ids the map lists the products in order. *)
Lemma initRows_NoDup f cols ps :
  NoDup (MasterProduct.id <$> ps) →
  initRows f cols ps
  = (fun p => (MasterProduct.id p, initialRow f cols p)) <$> ps.
Proof.
  induction ps as [|p ps IH] using rev_ind; [done|].
  rewrite fmap_app, NoDup_app. intros (Hnd & Hdisj & _).
  rewrite initRows_snoc, js_set_fresh.
  - by rewrite IH, fmap_app.
  - rewrite initRows_keys_elem. intros Hin. apply (Hdisj _ Hin). simpl. left.
Qed.

Lemma rowProduct_initialRow f cols p : rowProduct (initialRow f cols p) = p.
Proof. by destruct p. Qed.

(** *** The second loop: filling in the planning records *)

Lemma fillRow_product_id plan row :
  PivotedProductRow.product_id (fillRow plan row)
  = PivotedProductRow.product_id row.
Proof. unfold fillRow. simpl. by case_match. Qed.

Lemma fillRow_rowProduct plan row :
  rowProduct (fillRow plan row) = rowProduct row.
Proof. unfold fillRow. simpl. by case_match. Qed.

Lemma fillRow_months plan row mk :
  PivotedProductRow.months (fillRow plan row) !! mk
  = if decide (substring07 (SalesPlanDetail.bulan_tahun plan) = mk
               ∧ is_Some (PivotedProductRow.months row !! mk))
    then Some (monthDataOfPlan plan)
    else PivotedProductRow.months row !! mk.
Proof.
  unfold fillRow. simpl.
  destruct (PivotedProductRow.months row
              !! substring07 (SalesPlanDetail.bulan_tahun plan)) as [c|] eqn:Hc;
    simpl.
  - destruct (decide (substring07 (SalesPlanDetail.bulan_tahun plan) = mk))
      as [<-|Hne].
    + rewrite lookup_insert_eq, decide_True; [done|]. by rewrite Hc.
    + rewrite lookup_insert_ne by done. rewrite decide_False; tauto.
  - case_decide as H; [|done]. destruct H as [<- [? H]]. congruence.
Qed.

Lemma fillRow_months_is_Some plan row mk :
  is_Some (PivotedProductRow.months (fillRow plan row) !! mk)
  ↔ is_Some (PivotedProductRow.months row !! mk).
Proof.
  rewrite fillRow_months. case_decide as H; [|done].
  destruct H as [_ ?]. split; [done | by eexists].
Qed.

Lemma fillPlan_keys pm plan : js_keys (fillPlan pm plan) = js_keys pm.
Proof.
  unfold fillPlan.
  destruct (js_get _ pm) as [row|] eqn:Hget; [|done].
  apply js_keys_set_present, js_get_is_Some. by rewrite Hget.
Qed.

Lemma fillPlans_keys pm plans : js_keys (foldl fillPlan pm plans) = js_keys pm.
Proof.
  revert pm. induction plans as [|plan plans IH]; intros pm; [done|].
  simpl. by rewrite IH, fillPlan_keys.
Qed.

Lemma fillPlan_wf cols pm plan :
  Forall (rowWf cols) pm → Forall (rowWf cols) (fillPlan pm plan).
Proof.
  intros Hwf. unfold fillPlan.
  destruct (js_get _ pm) as [row|] eqn:Hget; [|done].
  apply js_set_Forall; [done|].
  apply js_get_Some_elem in Hget.
  rewrite Forall_forall in Hwf. destruct (Hwf _ Hget) as [Hid Hdom].
  split; simpl in *.
  - by rewrite fillRow_product_id.
  - intros mk. by rewrite fillRow_months_is_Some.
Qed.

Lemma fillPlans_wf cols pm plans :
  Forall (rowWf cols) pm → Forall (rowWf cols) (foldl fillPlan pm plans).
Proof.
  revert pm. induction plans as [|plan plans IH]; intros pm Hwf; [done|].
  simpl. by apply IH, fillPlan_wf.
Qed.



Lemma js_get_fillPlan pm plan p :
  js_get p (fillPlan pm plan)
  = if decide (SalesPlanDetail.product_id plan = p)
    then fillRow plan <$> js_get p pm
    else js_get p pm.
Proof.
  unfold fillPlan. case_decide as Hp.
  - subst p. destruct (js_get _ pm) as [row|] eqn:Hget.
    + by rewrite js_get_set_eq.
    + by rewrite Hget.
  - destruct (js_get (SalesPlanDetail.product_id plan) pm); [|done].
    by rewrite js_get_set_ne.
Qed.

Lemma fillRows_cons p plan plans row :
  fillRows p (plan :: plans) row
  = fillRows p plans
      (if decide (SalesPlanDetail.product_id plan = p)
       then fillRow plan row else row).
Proof. done. Qed.

Lemma js_get_fillPlans pm plans p :
  js_get p (foldl fillPlan pm plans) = fillRows p plans <$> js_get p pm.
Proof.
  revert pm. induction plans as [|plan plans IH]; intros pm; simpl.
  - by destruct (js_get p pm).
  - rewrite IH, js_get_fillPlan.
    destruct (js_get p pm) as [row|]; [|by case_decide].
    change (fillRows p (plan :: plans) <$> Some row)
      with (Some (fillRows p (plan :: plans) row)).
    rewrite fillRows_cons. by case_decide.
Qed.

Lemma fillRows_app p l1 l2 row :
  fillRows p (l1 ++ l2) row = fillRows p l2 (fillRows p l1 row).
Proof. unfold fillRows. by rewrite foldl_app. Qed.

Lemma fillRows_months_is_Some p plans row mk :
  is_Some (PivotedProductRow.months (fillRows p plans row) !! mk)
  ↔ is_Some (PivotedProductRow.months row !! mk).
Proof.
  revert row. induction plans as [|plan plans IH]; intros row; [done|].
  rewrite fillRows_cons, IH.
  case_decide; [apply fillRow_months_is_Some | done].
Qed.

(** Records pivoted to another position leave the cell alone. *)
Lemma fillRows_months_untouched p mk plans row :
  (p, mk) ∉ planPosition <$> plans →
  PivotedProductRow.months (fillRows p plans row) !! mk
  = PivotedProductRow.months row !! mk.
Proof.
  revert row. induction plans as [|plan plans IH]; intros row; [done|].
  rewrite fmap_cons, not_elem_of_cons. intros [Hne Hnin].
  rewrite fillRows_cons, IH by done.
  case_decide as Hp; [|done]. rewrite fillRow_months.
  case_decide as Hmk; [|done]. destruct Hmk as [Hmk _].
  exfalso. apply Hne. unfold planPosition. by rewrite Hp, Hmk.
Qed.

(** The last record pivoted to a position decides the cell. *)
Lemma fillRows_months_last p mk l1 plan l2 row :
  planPosition plan = (p, mk) →
  (p, mk) ∉ planPosition <$> l2 →
  is_Some (PivotedProductRow.months row !! mk) →
  PivotedProductRow.months (fillRows p (l1 ++ plan :: l2) row) !! mk
  = Some (monthDataOfPlan plan).
Proof.
  intros [= Hp Hmk] Hl2 Hsome.
  rewrite fillRows_app. change (plan :: l2) with ([plan] ++ l2)%list.
  rewrite fillRows_app, fillRows_months_untouched by done.
  rewrite fillRows_cons, decide_True by done.
  change (fillRows p [] ?r) with r.
  rewrite fillRow_months, decide_True; [done|].
  split; [done|]. by apply fillRows_months_is_Some.
Qed.

(** Looking a cell up in the rows is looking the row up in the map. *)
Lemma cellIn_js_values cols pm p mk :
  Forall (rowWf cols) pm →
  cellIn p mk (js_values pm)
  = js_get p pm ≫= fun row => PivotedProductRow.months row !! mk.
Proof.
  unfold cellIn, findRow, js_values.
  induction 1 as [|[k row] pm [Hid _] _ IH]; [done|].
  csimpl. simpl in Hid. rewrite Hid.
  destruct (String.eqb k p) eqn:E.
  - apply String.eqb_eq in E as ->. by rewrite decide_True.
  - apply String.eqb_neq in E. rewrite decide_False by done.
    rewrite <- IH. by destruct (list_find _ _) as [[? ?]|].
Qed.

(** *** The transform as a whole *)

Lemma pivot_pivotMap f ps plans : pivot f ps plans = js_values (pivotMap f ps plans).
Proof. done. Qed.

Lemma pivotMap_wf f ps plans :
  Forall (rowWf (monthColumns f)) (pivotMap f ps plans).
Proof. apply fillPlans_wf, initRows_wf. Qed.

Lemma rowWf_product_ids cols pm :
  Forall (rowWf cols) pm →
  PivotedProductRow.product_id <$> js_values pm = js_keys pm.
Proof.
  unfold js_values, js_keys.
  induction 1 as [|[k row] pm [Hid _] _ IH]; [done|].
  csimpl. simpl in Hid. by rewrite Hid, IH.
Qed.

Lemma pivot_product_ids f ps plans :
  PivotedProductRow.product_id <$> pivot f ps plans
  = js_keys (initRows f (monthColumns f) (filteredProducts f ps)).
Proof.
  rewrite pivot_pivotMap, (rowWf_product_ids _ _ (pivotMap_wf f ps plans)).
  apply fillPlans_keys.
Qed.



Lemma pivot_row_months f ps plans row mk :
  row ∈ pivot f ps plans →
  is_Some (PivotedProductRow.months row !! mk) ↔ mk ∈ monthKeys f.
Proof.
  rewrite pivot_pivotMap. unfold js_values.
  intros ([k r] & -> & Hin)%list_elem_of_fmap.
  pose proof (pivotMap_wf f ps plans) as Hwf.
  rewrite Forall_forall in Hwf. destruct (Hwf _ Hin) as [_ Hdom].
  apply Hdom.
Qed.

Lemma pivot_monthKeysClean f ps plans : monthKeysClean (pivot f ps plans).
Proof.
  intros row mk Hrow Hsome. apply (monthKeys_clean f).
  by apply (pivot_row_months f ps plans row).
Qed.

(** The cell of the pivot at a position of the grid: the second loop run
    on a row of empty cells. *)
Lemma pivot_cell f ps plans pid mk :
  pid ∈ candidateIds f ps →
  ∃ row0,
    PivotedProductRow.months row0 = emptyMonths (monthColumns f)
    ∧ cellIn pid mk (pivot f ps plans)
      = PivotedProductRow.months (fillRows pid plans row0) !! mk.
Proof.
  intros Hpid. rewrite pivot_pivotMap.
  rewrite (cellIn_js_values _ _ _ _ (pivotMap_wf f ps plans)).
  unfold pivotMap. rewrite js_get_fillPlans.
  assert (is_Some (js_get pid (initRows f (monthColumns f)
                                 (filteredProducts f ps)))) as [row Hrow].
  { apply js_get_is_Some, initRows_keys_elem. exact Hpid. }
  exists row. split; [by eapply initRows_months|].
  by rewrite Hrow.
Qed.



Lemma filteredProducts_NoDup f ps :
  NoDup (MasterProduct.id <$> ps) →
  NoDup (MasterProduct.id <$> filteredProducts f ps).
Proof.
  unfold filteredProducts. destruct (PlanningFilter.kategori f) as [k|]; [|done].
  induction ps as [|p ps IH]; [done|].
  rewrite fmap_cons, NoDup_cons, filter_cons. intros [Hnin Hnd].
  case_decide; [|auto].
  rewrite fmap_cons, NoDup_cons. split; [|auto].
  intros (q & Hq & [_ Hin]%list_elem_of_filter)%list_elem_of_fmap.
  apply Hnin, list_elem_of_fmap. eauto.
Qed.




(** No cell of a fresh pivot is marked modified. *)
Lemma fillRows_unmodified p plans row :
  (∀ mk c, PivotedProductRow.months row !! mk = Some c →
           MonthData.isModified c = false) →
  ∀ mk c, PivotedProductRow.months (fillRows p plans row) !! mk = Some c →
          MonthData.isModified c = false.
Proof.
  revert row. induction plans as [|plan plans IH]; intros row Hrow; [done|].
  rewrite fillRows_cons. apply IH. case_decide; [|done].
  intros mk c. rewrite fillRow_months. case_decide; [|apply Hrow].
  by intros [= <-].
Qed.

Lemma pivot_cell_unmodified f ps plans pid mk c :
  cellIn pid mk (pivot f ps plans) = Some c → MonthData.isModified c = false.
Proof.
  intros Hc.
  assert (pid ∈ candidateIds f ps) as Hpid.
  { unfold candidateIds.
    rewrite <- (initRows_keys_elem f (monthColumns f)),
            <- (pivot_product_ids f ps plans).
    unfold cellIn in Hc.
    destruct (findRow pid (pivot f ps plans)) as [[i row]|] eqn:Hfind; [|done].
    apply findRow_Some in Hfind as [Hi <-].
    apply list_elem_of_fmap. exists row. split; [done|].
    by eapply list_elem_of_lookup_2. }
  destruct (pivot_cell f ps plans pid mk Hpid) as (row0 & Hmonths & Heq).
  rewrite Heq in Hc. eapply fillRows_unmodified; [|exact Hc].
  intros mk' c'. rewrite Hmonths. intros Hz%emptyMonths_zero.
  unfold isZeroCell in Hz. tauto.
Qed.

(* ===================================================================== *)
(** ** Lemmas on the actions and the reachable states *)
(* ===================================================================== *)

Lemma hasUnsavedChanges_true s :
  hasUnsavedChanges s = true ↔ modifiedCells s ≠ [].
Proof.
  unfold hasUnsavedChanges, js_size. rewrite bool_decide_eq_true.
  destruct (modifiedCells s); simpl; split; (done || lia).
Qed.

Lemma hasUnsavedChanges_false s :
  hasUnsavedChanges s = false ↔ modifiedCells s = [].
Proof.
  unfold hasUnsavedChanges, js_size. rewrite bool_decide_eq_false.
  destruct (modifiedCells s); simpl; split; (done || lia).
Qed.

Lemma cellAt_clean p mk s :
  monthKeysClean (pivotedData s) → is_Some (cellAt p mk s) →
  has_underscore mk = false.
Proof.
  unfold cellAt, cellIn. intros Hclean.
  destruct (findRow p (pivotedData s)) as [[i row]|] eqn:Hfind;
    [|by intros [? ?]].
  apply findRow_Some in Hfind as [Hi _]. intros Hsome.
  eapply Hclean; [|exact Hsome]. by eapply list_elem_of_lookup_2.
Qed.

Lemma cellAt_updateCell_is_Some p mk f v s p' mk' :
  is_Some (cellAt p' mk' (updateCell p mk f v s)) ↔ is_Some (cellAt p' mk' s).
Proof.
  rewrite cellAt_updateCell. case_decide as Heq; [|done].
  destruct Heq as [-> ->]. by rewrite fmap_is_Some.
Qed.

Lemma updateCell_monthKeysClean p mk f v s :
  monthKeysClean (pivotedData s) →
  monthKeysClean (pivotedData (updateCell p mk f v s)).
Proof.
  intros Hclean. unfold updateCell.
  destruct (findRow p (pivotedData s)) as [[i row]|] eqn:Hfind; [|done].
  destruct (PivotedProductRow.months row !! mk) as [c|] eqn:Hc; [|done].
  simpl. apply findRow_Some in Hfind as [Hi _].
  intros r mk' (j & Hj)%list_elem_of_lookup_1 Hsome.
  apply list_lookup_insert_Some in Hj as [(-> & <- & _)|[_ Hj]].
  - simpl in Hsome. apply lookup_insert_is_Some in Hsome as [<-|[_ Hsome]].
    + eapply Hclean; [by eapply list_elem_of_lookup_2|]. by rewrite Hc.
    + eapply Hclean; [by eapply list_elem_of_lookup_2|done].
  - eapply Hclean; [by eapply list_elem_of_lookup_2|done].
Qed.

Lemma updateCell_tracker_NoDup p mk f v s :
  NoDup (js_keys (modifiedCells s)) →
  NoDup (js_keys (modifiedCells (updateCell p mk f v s))).
Proof.
  intros Hnd. unfold updateCell.
  destruct (findRow p (pivotedData s)) as [[i row]|]; [|done].
  destruct (PivotedProductRow.months row !! mk); [|done].
  simpl. by apply js_keys_set_NoDup.
Qed.

Lemma monthKeysClean_nil : monthKeysClean [].
Proof. intros row mk Hrow. by apply elem_of_nil in Hrow. Qed.

Lemma fetchSalesPlans_inv resp s :
  storeInv s → storeInv (fetchSalesPlans resp s).1.
Proof.
  intros [Hclean Hnd]. unfold fetchSalesPlans.
  destruct (truthy _); simpl.
  - destruct (resp_error resp); simpl; split; try done.
    apply pivot_monthKeysClean.
  - split; [apply monthKeysClean_nil | done].
Qed.

Lemma fetchSalesPlans_modifiedCells resp s :
  modifiedCells (fetchSalesPlans resp s).1 = modifiedCells s.
Proof.
  unfold fetchSalesPlans. destruct (truthy _); simpl; [|done].
  by destruct (resp_error resp).
Qed.

Lemma fetchSalesPlans_currentFilter resp s :
  currentFilter (fetchSalesPlans resp s).1 = currentFilter s.
Proof.
  unfold fetchSalesPlans. destruct (truthy _); simpl; [|done].
  by destruct (resp_error resp).
Qed.

Lemma saveChanges_inv upsertResp fetchResp s :
  storeInv s → storeInv (saveChanges upsertResp fetchResp s).1.
Proof.
  intros Hinv. unfold saveChanges.
  destruct (hasUnsavedChanges s); simpl; [|done].
  destruct upsertResp as [e|]; [exact Hinv|].
  destruct (fetchSalesPlans fetchResp _) as [s3 reqs] eqn:Hfetch. simpl.
  assert (storeInv s3) as [? ?]; [|by split].
  change s3 with (s3, reqs).1. rewrite <- Hfetch.
  apply fetchSalesPlans_inv. destruct Hinv as [? _].
  split; [done | apply NoDup_nil_2].
Qed.

Lemma reachable_inv s : reachable s → storeInv s.
Proof.
  induction 1 as [y | s a b _ IH | s a _ IH | s p mk f v _ IH
                 | s a b _ IH | s _ IH | s fl a _ IH].
  - split; [apply monthKeysClean_nil | apply NoDup_nil_2].
  - destruct IH as [? ?]. unfold fetchMasterData.
    destruct (resp_error a); [done|]. by destruct (resp_error b).
  - by apply fetchSalesPlans_inv.
  - destruct IH as [? ?].
    split; [by apply updateCell_monthKeysClean
           | by apply updateCell_tracker_NoDup].
  - by apply saveChanges_inv.
  - split; [apply pivot_monthKeysClean | apply NoDup_nil_2].
  - unfold setFilter. destruct (truthy _).
    + apply fetchSalesPlans_inv. exact IH.
    + exact IH.
Qed.

(** *** The tracker after a run of edits *)

Lemma applyEdits_cons e es s :
  applyEdits (e :: es) s = applyEdits es (applyEdit s e).
Proof. done. Qed.

Lemma applyEdits_tracker_keys es s :
  monthKeysClean (pivotedData s) →
  Forall (fun e => is_Some (cellAt (e_productId e) (e_monthKey e) s)) es →
  NoDup ((fun e => cellKey (e_productId e) (e_monthKey e)) <$> es) →
  (∀ e, e ∈ es →
     cellKey (e_productId e) (e_monthKey e) ∉ js_keys (modifiedCells s)) →
  js_keys (modifiedCells (applyEdits es s))
  = (js_keys (modifiedCells s)
       ++ ((fun e => cellKey (e_productId e) (e_monthKey e)) <$> es))%list.
Proof.
  revert s. induction es as [|e es IH]; intros s Hclean Hok Hnd Hfresh.
  - simpl. by rewrite app_nil_r.
  - apply Forall_cons in Hok as [[c Hc] Hok].
    rewrite fmap_cons in Hnd. apply NoDup_cons in Hnd as [Hnin Hnd].
    rewrite applyEdits_cons. unfold applyEdit at 1.
    rewrite IH; clear IH.
    + rewrite (modifiedCells_updateCell _ _ _ _ _ _ Hc).
      rewrite js_keys_set_fresh by (apply Hfresh; left).
      by rewrite <- app_assoc.
    + by apply updateCell_monthKeysClean.
    + eapply Forall_impl; [exact Hok|]. intros e' He'. simpl in *.
      by apply cellAt_updateCell_is_Some.
    + done.
    + intros e' He'. rewrite (modifiedCells_updateCell _ _ _ _ _ _ Hc).
      rewrite js_keys_set_elem. intros [Heq|Hin].
      * apply Hnin. rewrite <- Heq. apply list_elem_of_fmap. by exists e'.
      * apply (Hfresh e'); [by right | done].
Qed.

Lemma editTargets_cellKeys_NoDup es s :
  monthKeysClean (pivotedData s) →
  Forall (fun e => is_Some (cellAt (e_productId e) (e_monthKey e) s)) es →
  NoDup (editTarget <$> es) →
  NoDup ((fun e => cellKey (e_productId e) (e_monthKey e)) <$> es).
Proof.
  intros Hclean Hok Hnd. rewrite Forall_forall in Hok.
  apply NoDup_fmap_1 in Hnd as Hes.
  apply NoDup_fmap_2_strong; [|done].
  intros e1 e2 H1 H2 Heq.
  apply cellKey_inj in Heq as [Hp Hm];
    [|by eapply cellAt_clean, Hok..].
  assert (editTarget e1 = editTarget e2) as Ht
    by (unfold editTarget; congruence).
  revert Ht. clear -Hnd H1 H2. revert H1 H2.
  induction es as [|e es IH]; [by intros ?%elem_of_nil|].
  rewrite fmap_cons in Hnd. apply NoDup_cons in Hnd as [Hnin Hnd].
  intros [->|H1]%elem_of_cons [->|H2]%elem_of_cons Ht; [done| | |by apply IH].
  - exfalso. apply Hnin. rewrite Ht. apply list_elem_of_fmap. eauto.
  - exfalso. apply Hnin. rewrite <- Ht. apply list_elem_of_fmap. eauto.
Qed.

(** *** The batch of a commit *)

Lemma omap_cons_Some {A B} (g : A → option B) x y l :
  g x = Some y → omap g (x :: l) = y :: omap g l.
Proof. intros Hx. csimpl. by rewrite Hx. Qed.

Lemma upsertData_falsy_region s :
  truthy (PlanningFilter.region_id (currentFilter s)) = false →
  upsertData s = [].
Proof.
  intros Hr. unfold upsertData.
  induction (modifiedCells s) as [|[k c] m IH]; [done|].
  csimpl. rewrite IH. unfold upsertRecordOf. by rewrite Hr.
Qed.

Lemma upsertRecordOf_cellKey rid pid mk c :
  rid ≠ "" → pid ≠ "" → has_underscore pid = false →
  upsertRecordOf (Some rid) (cellKey pid mk, c) = Some (writeRecord pid rid c).
Proof.
  intros Hrid Hpid Hclean. unfold upsertRecordOf.
  rewrite (split_cellKey pid mk Hclean), !truthy_Some by done. done.
Qed.

Lemma upsertRecordOf_region rid entry r :
  upsertRecordOf rid entry = Some r → rid = Some (UpsertRecord.region_id r).
Proof.
  destruct entry as [k c]. unfold upsertRecordOf.
  destruct (truthy rid) eqn:Hrid; [|done].
  apply truthy_true in Hrid as (x & -> & _).
  destruct (truthy (split "_"%char k !! 0%nat)); [|done].
  by intros [= <-].
Qed.

Lemma saveChanges_requests upsertResp fetchResp s :
  hasUnsavedChanges s = true →
  ∃ rest, (saveChanges upsertResp fetchResp s).2
          = UpsertSalesPlans (upsertData s) :: rest.
Proof.
  intros Hdirty. unfold saveChanges. rewrite Hdirty. simpl.
  destruct upsertResp as [e|]; [by exists []|].
  destruct (fetchSalesPlans fetchResp _) as [s3 reqs]. by exists reqs.
Qed.

Lemma setFilter_modifiedCells filter resp s :
  modifiedCells (setFilter filter resp s).1 = modifiedCells s.
Proof.
  unfold setFilter. destruct (truthy _); [|done].
  by rewrite fetchSalesPlans_modifiedCells.
Qed.

Lemma setFilter_currentFilter filter resp s :
  currentFilter (setFilter filter resp s).1
  = mergeFilter (currentFilter s) filter.
Proof.
  unfold setFilter. destruct (truthy _); [|done].
  by rewrite fetchSalesPlans_currentFilter.
Qed.

(* ===================================================================== *)
(** ** The properties of the specification *)
(* ===================================================================== *)

(** *** Recompute *)



(** C6.  An [updateCell] on [target_jual], [realisasi_sales] or [ito]
    that finds its cell leaves [stok_akhir] as it was, sets the named
    field and the modified flag, changes no other field of the cell, and
    changes no other cell. *)
Theorem C6_recompute_exclusion
    (s : Store) (p mk : string) (f : MonthDataKey) (v : Z)
    (c0 : MonthData.t) :
  f ∈ [K_target_jual; K_realisasi_sales; K_ito] →
  cellAt p mk s = Some c0 →
  ∃ c1,
    cellAt p mk (updateCell p mk f v s) = Some c1
    ∧ MonthData.stok_akhir c1 = MonthData.stok_akhir c0
    ∧ readField f c1 = V_number v
    ∧ MonthData.isModified c1 = true
    ∧ (∀ k, k ≠ f → k ≠ K_isModified → readField k c1 = readField k c0)
    ∧ (∀ p' mk', (p', mk') ≠ (p, mk) →
         cellAt p' mk' (updateCell p mk f v s) = cellAt p' mk' s).
Proof.
  intros Hf Hc0.
  assert (triggersRecompute f = false) as Htrig.
  { repeat (apply elem_of_cons in Hf as [->|Hf]; [done|]).
    by apply elem_of_nil in Hf. }
  exists (editCell f v c0). split_and!.
  - rewrite cellAt_updateCell, decide_True by done. by rewrite Hc0.
  - assert (readField K_stok_akhir (editCell f v c0)
            = readField K_stok_akhir c0) as Hk; [|by injection Hk].
    apply editCell_readField_other; [|done|congruence].
    intros <-. repeat (apply elem_of_cons in Hf as [?|Hf]; [done|]).
    by apply elem_of_nil in Hf.
  - apply editCell_readField_assigned.
    repeat (apply elem_of_cons in Hf as [->|Hf]; [set_solver|]).
    by apply elem_of_nil in Hf.
  - apply editCell_isModified.
  - intros k Hk Hm. apply editCell_readField_other; [done..|congruence].
  - intros p' mk' Hne. rewrite cellAt_updateCell, decide_False; [done|].
    intros [-> ->]. done.
Qed.

Lemma C6_witness :
  K_ito ∈ [K_target_jual; K_realisasi_sales; K_ito]
  ∧ cellAt "P1" "2026-01" demoStore = Some (monthDataOfPlan demoPlan)
  ∧ ∃ c1,
      cellAt "P1" "2026-01" (updateCell "P1" "2026-01" K_ito 3 demoStore)
      = Some c1
      ∧ MonthData.stok_akhir c1 = 90
      ∧ readField K_ito c1 = V_number 3
      ∧ MonthData.isModified c1 = true
      ∧ (∀ k, k ≠ K_ito → k ≠ K_isModified →
              readField k c1 = readField k (monthDataOfPlan demoPlan))
      ∧ (∀ p' mk', (p', mk') ≠ ("P1", "2026-01") →
           cellAt p' mk' (updateCell "P1" "2026-01" K_ito 3 demoStore)
           = cellAt p' mk' demoStore).
Proof.
  split; [set_solver|]. split; [by vm_compute|].
  apply (C6_recompute_exclusion demoStore "P1" "2026-01" K_ito 3
           (monthDataOfPlan demoPlan)).
  - set_solver.
  - by vm_compute.
Defined.



(** *** The pivot transform *)






(** *** Discard *)


(** *** Commit *)

(** C4, as stated, fails: the upsert succeeds, the tracker is cleared,
    but the fetch that follows fails, and the pivot is left as it was,
    edited cell included; it is the transform of no list of planning
    records. *)
Lemma C4_counterexample :
  let s' := (saveChanges None failedFetch demoEdited).1 in
  hasUnsavedChanges demoEdited = true
  ∧ modifiedCells s' = []
  ∧ pivotedData s' = pivotedData demoEdited
  ∧ (MonthData.stok_awal <$> cellAt "P1" "2026-02" s') = Some 40
  ∧ ∀ plans, pivotedData s' ≠ pivot (currentFilter s') (products s') plans.
Proof.
  split_and!; try by vm_compute.
  intros plans Heq.
  assert (MonthData.isModified
            <$> cellIn "P1" "2026-02"
                  (pivotedData (saveChanges None failedFetch demoEdited).1)
          = Some true) as Hcell by by vm_compute.
  rewrite Heq in Hcell.
  destruct (cellIn _ _ _) as [c|] eqn:Hc; [|done].
  apply pivot_cell_unmodified in Hc. simpl in Hcell. congruence.
Qed.

(** C4, amended.  A commit with pending edits sends one batch.  If the
    upsert fails, the tracker and the pivot are as before, the error is
    in [error], and a retry sends the same batch.  If the upsert
    succeeds, the tracker is emptied; then, with a region selected, a
    fetch that succeeds replaces the planning records and the pivot by
    the fetched records and their transform, and a fetch that fails
    leaves records and pivot as they were and puts its error in [error];
    with no region selected, records and pivot are emptied. *)
Theorem C4_commit_outcomes
    (s : Store) (fetchResp : response (list SalesPlanDetail.t)) :
  hasUnsavedChanges s = true →
  (∀ e,
     let s' := (saveChanges (Some e) fetchResp s).1 in
     modifiedCells s' = modifiedCells s
     ∧ pivotedData s' = pivotedData s
     ∧ error s' = Some (error_message e "Failed to save changes")
     ∧ hasUnsavedChanges s' = true
     ∧ upsertData s' = upsertData s
     ∧ (saveChanges (Some e) fetchResp s).2
       = [UpsertSalesPlans (upsertData s)])
  ∧ (let s' := (saveChanges None fetchResp s).1 in
     modifiedCells s' = []
     ∧ (truthy (PlanningFilter.region_id (currentFilter s)) = true →
        resp_error fetchResp = None →
        salesPlanDetails s' = default [] (resp_data fetchResp)
        ∧ pivotedData s'
          = pivot (currentFilter s) (products s)
                  (default [] (resp_data fetchResp)))
     ∧ (truthy (PlanningFilter.region_id (currentFilter s)) = true →
        ∀ e, resp_error fetchResp = Some e →
          salesPlanDetails s' = salesPlanDetails s
          ∧ pivotedData s' = pivotedData s
          ∧ error s' = Some (error_message e "Failed to fetch sales plans"))
     ∧ (truthy (PlanningFilter.region_id (currentFilter s)) = false →
        salesPlanDetails s' = [] ∧ pivotedData s' = [])).
Proof.
  intros Hdirty. split.
  - intros e. unfold saveChanges. rewrite Hdirty. simpl.
    split_and!; try done.
  - unfold saveChanges, fetchSalesPlans. rewrite Hdirty. simpl.
    destruct (truthy _); simpl.
    + destruct (resp_error fetchResp) as [e|]; simpl.
      * split_and!; try done. by intros _ e' [= <-].
      * split_and!; done.
    + split_and!; done.
Qed.

Lemma C4_witness :
  hasUnsavedChanges demoEdited = true
  ∧ (∀ e,
       let s' := (saveChanges (Some e) failedFetch demoEdited).1 in
       modifiedCells s' = modifiedCells demoEdited
       ∧ pivotedData s' = pivotedData demoEdited
       ∧ error s' = Some (error_message e "Failed to save changes")
       ∧ hasUnsavedChanges s' = true
       ∧ upsertData s' = upsertData demoEdited
       ∧ (saveChanges (Some e) failedFetch demoEdited).2
         = [UpsertSalesPlans (upsertData demoEdited)])
  ∧ (let s' := (saveChanges None failedFetch demoEdited).1 in
     modifiedCells s' = []
     ∧ (truthy (PlanningFilter.region_id (currentFilter demoEdited)) = true →
        resp_error failedFetch = None →
        salesPlanDetails s' = default [] (resp_data failedFetch)
        ∧ pivotedData s'
          = pivot (currentFilter demoEdited) (products demoEdited)
                  (default [] (resp_data failedFetch)))
     ∧ (truthy (PlanningFilter.region_id (currentFilter demoEdited)) = true →
        ∀ e, resp_error failedFetch = Some e →
          salesPlanDetails s' = salesPlanDetails demoEdited
          ∧ pivotedData s' = pivotedData demoEdited
          ∧ error s' = Some (error_message e "Failed to fetch sales plans"))
     ∧ (truthy (PlanningFilter.region_id (currentFilter demoEdited)) = false →
        salesPlanDetails s' = [] ∧ pivotedData s' = [])).
Proof.
  split; [by vm_compute|].
  apply (C4_commit_outcomes demoEdited failedFetch). by vm_compute.
Defined.

(** C8, as stated, fails: with the region deselected while an edit is
    pending, the tracker has one entry and the batch of the commit has
    no record. *)
Lemma C8_counterexample :
  reachable demoNoRegion
  ∧ js_size (modifiedCells demoNoRegion) = 1%nat
  ∧ (saveChanges None (Response None None) demoNoRegion).2
    = [UpsertSalesPlans []].
Proof.
  split_and!; [|by vm_compute..].
  apply reach_setFilter, reach_updateCell, reach_setFilter.
  apply reach_fetchMasterData, reach_initial.
Qed.

(** C8, amended.  Let every tracker key name a non-empty product id
    without underscore (as the UUIDs of the catalogue are).  With a
    non-empty region id in the current filter, the batch has exactly one
    write record per tracker entry, in the order of the tracker, carrying
    that product id, the region id of the filter, the [bulan_tahun] of
    the snapshot, its seven values, and its identifier when that is
    neither null nor empty (none otherwise).  With no region id in the
    filter the batch is empty. *)
Theorem C8_write_records (s : Store) :
  Forall (fun entry : string * MonthData.t =>
            ∃ pid mk, entry.1 = cellKey pid mk
                      ∧ pid ≠ "" ∧ has_underscore pid = false)
         (modifiedCells s) →
  (∀ rid,
     PlanningFilter.region_id (currentFilter s) = Some rid → rid ≠ "" →
     Forall2 (fun (entry : string * MonthData.t) (r : UpsertRecord.t) =>
                ∃ pid mk,
                  entry.1 = cellKey pid mk ∧ has_underscore pid = false
                  ∧ UpsertRecord.product_id r = pid
                  ∧ UpsertRecord.region_id r = rid
                  ∧ UpsertRecord.bulan_tahun r = MonthData.bulan_tahun entry.2
                  ∧ UpsertRecord.target_jual r = MonthData.target_jual entry.2
                  ∧ UpsertRecord.estimasi_jual r
                    = MonthData.estimasi_jual entry.2
                  ∧ UpsertRecord.realisasi_sales r
                    = MonthData.realisasi_sales entry.2
                  ∧ UpsertRecord.stok_awal r = MonthData.stok_awal entry.2
                  ∧ UpsertRecord.stok_akhir r = MonthData.stok_akhir entry.2
                  ∧ UpsertRecord.order_qty r = MonthData.order_qty entry.2
                  ∧ UpsertRecord.ito r = MonthData.ito entry.2
                  ∧ UpsertRecord.id r
                    = (if truthy (MonthData.id entry.2)
                       then MonthData.id entry.2 else None))
             (modifiedCells s) (upsertData s))
  ∧ (truthy (PlanningFilter.region_id (currentFilter s)) = false →
     upsertData s = [])
  ∧ (hasUnsavedChanges s = true →
     ∀ upsertResp fetchResp,
       ∃ rest, (saveChanges upsertResp fetchResp s).2
               = UpsertSalesPlans (upsertData s) :: rest).
Proof.
  intros Hkeys. split_and!.
  - intros rid Hregion Hrid. unfold upsertData. rewrite Hregion.
    induction Hkeys as [|[k c] m (pid & mk & Hk & Hpid & Hclean) _ IH];
      [constructor|].
    simpl in Hk. subst k.
    rewrite (omap_cons_Some _ _ _ _
               (upsertRecordOf_cellKey rid pid mk c Hrid Hpid Hclean)).
    constructor; [|exact IH].
    exists pid, mk. by repeat split.
  - apply upsertData_falsy_region.
  - intros Hdirty upsertResp fetchResp. by apply saveChanges_requests.
Qed.

Lemma C8_witness :
  (Forall (fun entry : string * MonthData.t =>
            ∃ pid mk, entry.1 = cellKey pid mk
                      ∧ pid ≠ "" ∧ has_underscore pid = false)
         (modifiedCells demoEdited))
  ∧ ((∀ rid,
     PlanningFilter.region_id (currentFilter demoEdited) = Some rid → rid ≠ "" →
     Forall2 (fun (entry : string * MonthData.t) (r : UpsertRecord.t) =>
                ∃ pid mk,
                  entry.1 = cellKey pid mk ∧ has_underscore pid = false
                  ∧ UpsertRecord.product_id r = pid
                  ∧ UpsertRecord.region_id r = rid
                  ∧ UpsertRecord.bulan_tahun r = MonthData.bulan_tahun entry.2
                  ∧ UpsertRecord.target_jual r = MonthData.target_jual entry.2
                  ∧ UpsertRecord.estimasi_jual r
                    = MonthData.estimasi_jual entry.2
                  ∧ UpsertRecord.realisasi_sales r
                    = MonthData.realisasi_sales entry.2
                  ∧ UpsertRecord.stok_awal r = MonthData.stok_awal entry.2
                  ∧ UpsertRecord.stok_akhir r = MonthData.stok_akhir entry.2
                  ∧ UpsertRecord.order_qty r = MonthData.order_qty entry.2
                  ∧ UpsertRecord.ito r = MonthData.ito entry.2
                  ∧ UpsertRecord.id r
                    = (if truthy (MonthData.id entry.2)
                       then MonthData.id entry.2 else None))
             (modifiedCells demoEdited) (upsertData demoEdited))
  ∧ (truthy (PlanningFilter.region_id (currentFilter demoEdited)) = false →
     upsertData demoEdited = [])
  ∧ (hasUnsavedChanges demoEdited = true →
     ∀ upsertResp fetchResp,
       ∃ rest, (saveChanges upsertResp fetchResp demoEdited).2
               = UpsertSalesPlans (upsertData demoEdited) :: rest)).
Proof.
  assert (Forall (fun entry : string * MonthData.t =>
                    ∃ pid mk, entry.1 = cellKey pid mk
                              ∧ pid ≠ "" ∧ has_underscore pid = false)
                 (modifiedCells demoEdited)) as Hkeys.
  { change (modifiedCells demoEdited)
      with [(cellKey "P1" "2026-02",
             editCell K_stok_awal 40
               (createEmptyMonthData "2026-02-01" "Feb 2026"))].
    constructor; [|constructor]. by exists "P1", "2026-02". }
  split; [exact Hkeys|].
  exact (C8_write_records demoEdited Hkeys).
Defined.

(** C10.  The region id of every write record is the one in the filter
    of the store the commit runs on; [setFilter] keeps the tracker as it
    is; so an entry recorded by an edit is, after a change to another
    region, sent under that region. *)
Theorem C10_region_at_commit
    (s : Store) (p mk : string) (f : MonthDataKey) (v : Z) (c : MonthData.t)
    (region' : string) (fetchResp : response (list SalesPlanDetail.t)) :
  cellAt p mk s = Some c →
  p ≠ "" → has_underscore p = false → region' ≠ "" →
  let s1 := updateCell p mk f v s in
  let s2 :=
    (setFilter (PartialFilter.mk (Some (Some region')) None None None None)
               fetchResp s1).1 in
  (∀ s0 r, r ∈ upsertData s0 →
           PlanningFilter.region_id (currentFilter s0)
           = Some (UpsertRecord.region_id r))
  ∧ (∀ s0 filter resp,
       modifiedCells (setFilter filter resp s0).1 = modifiedCells s0)
  ∧ js_get (cellKey p mk) (modifiedCells s2) = Some (editCell f v c)
  ∧ writeRecord p region' (editCell f v c) ∈ upsertData s2
  ∧ (∀ r, r ∈ upsertData s2 → UpsertRecord.region_id r = region')
  ∧ ∀ upsertResp resp,
      ∃ rest, (saveChanges upsertResp resp s2).2
              = UpsertSalesPlans (upsertData s2) :: rest.
Proof.
  intros Hc Hp Hclean Hregion s1 s2.
  assert (modifiedCells s2
          = js_set (cellKey p mk) (editCell f v c) (modifiedCells s)) as Hm.
  { unfold s2. rewrite setFilter_modifiedCells. unfold s1.
    by apply modifiedCells_updateCell. }
  assert (PlanningFilter.region_id (currentFilter s2) = Some region') as Hr.
  { unfold s2. by rewrite setFilter_currentFilter. }
  split_and!.
  - intros s0 r. unfold upsertData. rewrite list_elem_of_omap.
    intros (entry & _ & Hrec). by eapply upsertRecordOf_region.
  - intros s0 filter resp. apply setFilter_modifiedCells.
  - rewrite Hm. apply js_get_set_eq.
  - unfold upsertData. rewrite list_elem_of_omap.
    exists (cellKey p mk, editCell f v c). split.
    + rewrite Hm. apply js_set_elem.
    + rewrite Hr. by apply upsertRecordOf_cellKey.
  - intros r. unfold upsertData. rewrite list_elem_of_omap.
    intros (entry & _ & Hrec). apply upsertRecordOf_region in Hrec.
    rewrite Hr in Hrec. by injection Hrec.
  - intros upsertResp resp. apply saveChanges_requests.
    apply hasUnsavedChanges_true. rewrite Hm.
    by destruct (modifiedCells s) as [|[k c'] m]; simpl;
      [|destruct (String.eqb _ _)].
Qed.

Lemma C10_witness :
  cellAt "P1" "2026-02" demoStore
  = Some (createEmptyMonthData "2026-02-01" "Feb 2026")
  ∧ "P1" ≠ "" ∧ has_underscore "P1" = false ∧ "R2" ≠ ""
  ∧ let c := createEmptyMonthData "2026-02-01" "Feb 2026" in
    let s1 := updateCell "P1" "2026-02" K_stok_awal 40 demoStore in
    let s2 :=
      (setFilter (PartialFilter.mk (Some (Some "R2")) None None None None)
                 failedFetch s1).1 in
    (∀ s0 r, r ∈ upsertData s0 →
             PlanningFilter.region_id (currentFilter s0)
             = Some (UpsertRecord.region_id r))
    ∧ (∀ s0 filter resp,
         modifiedCells (setFilter filter resp s0).1 = modifiedCells s0)
    ∧ js_get (cellKey "P1" "2026-02") (modifiedCells s2)
      = Some (editCell K_stok_awal 40 c)
    ∧ writeRecord "P1" "R2" (editCell K_stok_awal 40 c) ∈ upsertData s2
    ∧ (∀ r, r ∈ upsertData s2 → UpsertRecord.region_id r = "R2")
    ∧ ∀ upsertResp resp,
        ∃ rest, (saveChanges upsertResp resp s2).2
                = UpsertSalesPlans (upsertData s2) :: rest.
Proof.
  assert (cellAt "P1" "2026-02" demoStore
          = Some (createEmptyMonthData "2026-02-01" "Feb 2026")) as Hc
    by by vm_compute.
  assert ("P1" ≠ "") as Hp by done.
  assert ("R2" ≠ "") as Hr by done.
  split; [exact Hc|]. split; [exact Hp|]. split; [reflexivity|].
  split; [exact Hr|].
  exact (C10_region_at_commit demoStore "P1" "2026-02" K_stok_awal 40
           (createEmptyMonthData "2026-02-01" "Feb 2026") "R2" failedFetch
           Hc Hp eq_refl Hr).
Defined.

(** *** The edit tracker *)

(** C7.  In a store the actions can produce: from an empty tracker (as
    a commit that succeeded or a discard leaves it), edits that find
    their cells at N pairwise different (product id, month key)
    positions leave exactly N entries, and [hasUnsavedChanges] is true
    when N is positive; two successive edits of one cell leave exactly
    one entry under its key, which holds the cell as it is after the
    second edit, and the second edit adds no entry; and
    [hasUnsavedChanges] is true exactly when the tracker is not empty.
    An edit finds its cell after earlier edits exactly when it does
    before them, so the condition is stated on the store before the
    edits. *)
Theorem C7_tracker_accuracy (s : Store) :
  reachable s →
  (∀ es,
     modifiedCells s = [] →
     Forall (fun e => is_Some (cellAt (e_productId e) (e_monthKey e) s)) es →
     NoDup (editTarget <$> es) →
     js_size (modifiedCells (applyEdits es s)) = List.length es
     ∧ (es ≠ [] → hasUnsavedChanges (applyEdits es s) = true))
  ∧ (∀ p mk f1 v1 f2 v2,
       is_Some (cellAt p mk s) →
       let s1 := updateCell p mk f1 v1 s in
       let s2 := updateCell p mk f2 v2 s1 in
       ∃ c, cellAt p mk s2 = Some c
            ∧ List.filter (fun entry => String.eqb entry.1 (cellKey p mk))
                          (modifiedCells s2)
              = [(cellKey p mk, c)]
            ∧ js_size (modifiedCells s2) = js_size (modifiedCells s1))
  ∧ (hasUnsavedChanges s = true ↔ modifiedCells s ≠ []).
Proof.
  intros [Hclean Hnd]%reachable_inv. split_and!.
  - intros es Hempty Hok Htargets.
    assert (js_size (modifiedCells (applyEdits es s)) = List.length es) as Hsize.
    { unfold js_size.
      rewrite <- (length_fmap fst (modifiedCells (applyEdits es s))).
      change (fst <$> modifiedCells (applyEdits es s))
        with (js_keys (modifiedCells (applyEdits es s))).
      rewrite applyEdits_tracker_keys; try done.
      - rewrite Hempty. simpl. by rewrite length_fmap.
      - by eapply editTargets_cellKeys_NoDup.
      - intros e _. rewrite Hempty. apply not_elem_of_nil. }
    split; [exact Hsize|]. intros Hne.
    unfold hasUnsavedChanges. rewrite Hsize. apply bool_decide_eq_true.
    destruct es; [done | simpl; lia].
  - intros p mk f1 v1 f2 v2 [c0 Hc0] s1 s2.
    assert (cellAt p mk s1 = Some (editCell f1 v1 c0)) as Hc1.
    { unfold s1. rewrite cellAt_updateCell, decide_True by done.
      by rewrite Hc0. }
    assert (modifiedCells s1
            = js_set (cellKey p mk) (editCell f1 v1 c0) (modifiedCells s))
      as Hm1 by by apply modifiedCells_updateCell.
    assert (modifiedCells s2
            = js_set (cellKey p mk) (editCell f2 v2 (editCell f1 v1 c0))
                     (modifiedCells s1))
      as Hm2 by by apply modifiedCells_updateCell.
    exists (editCell f2 v2 (editCell f1 v1 c0)). split_and!.
    + unfold s2. rewrite cellAt_updateCell, decide_True by done.
      by rewrite Hc1.
    + apply js_filter_key.
      * unfold s2, s1. by do 2 apply updateCell_tracker_NoDup.
      * rewrite Hm2. apply js_get_set_eq.
    + unfold js_size.
      rewrite <- (length_fmap fst (modifiedCells s2)),
              <- (length_fmap fst (modifiedCells s1)).
      change (List.length (js_keys (modifiedCells s2))
              = List.length (js_keys (modifiedCells s1))).
      rewrite Hm2, js_keys_set_present; [done|].
      rewrite Hm1. apply js_keys_set_elem. by left.
  - apply hasUnsavedChanges_true.
Qed.

Lemma C7_witness :
  reachable demoStore
  ∧ (∀ es,
       modifiedCells demoStore = [] →
       Forall (fun e =>
                 is_Some (cellAt (e_productId e) (e_monthKey e) demoStore)) es →
       NoDup (editTarget <$> es) →
       js_size (modifiedCells (applyEdits es demoStore)) = List.length es
       ∧ (es ≠ [] → hasUnsavedChanges (applyEdits es demoStore) = true))
  ∧ (∀ p mk f1 v1 f2 v2,
       is_Some (cellAt p mk demoStore) →
       let s1 := updateCell p mk f1 v1 demoStore in
       let s2 := updateCell p mk f2 v2 s1 in
       ∃ c, cellAt p mk s2 = Some c
            ∧ List.filter (fun entry => String.eqb entry.1 (cellKey p mk))
                          (modifiedCells s2)
              = [(cellKey p mk, c)]
            ∧ js_size (modifiedCells s2) = js_size (modifiedCells s1))
  ∧ (hasUnsavedChanges demoStore = true ↔ modifiedCells demoStore ≠ []).
Proof.
  assert (reachable demoStore) as Hreach.
  { apply reach_setFilter, reach_fetchMasterData, reach_initial. }
  split; [exact Hreach|].
  exact (C7_tracker_accuracy demoStore Hreach).
Defined.

(* ===================================================================== *)
(** ** Further lemmas: strings and decimal numerals *)
(* ===================================================================== *)

Lemma string_app_cons (c : ascii) (s t : string) :
  String c s +:+ t = String c (s +:+ t).
Proof. done. Qed.

Lemma string_app_assoc (s1 s2 s3 : string) :
  (s1 +:+ s2) +:+ s3 = s1 +:+ (s2 +:+ s3).
Proof.
  induction s1 as [|c s1 IH]; [done|].
  rewrite !string_app_cons. f_equal. apply IH.
Qed.

Lemma string_length_app (s1 s2 : string) :
  String.length (s1 +:+ s2) = (String.length s1 + String.length s2)%nat.
Proof.
  induction s1 as [|c s1 IH]; [done|].
  rewrite string_app_cons. simpl. f_equal. apply IH.
Qed.

(** [(k + t).substring(0, k.length)] is [k]. *)
Lemma substring_prefix (k t : string) :
  String.substring 0 (String.length k) (k +:+ t) = k.
Proof.
  induction k as [|c k IH].
  - by destruct t.
  - rewrite string_app_cons. simpl. f_equal. apply IH.
Qed.

Lemma substring_length (n : nat) (s : string) :
  String.length (String.substring 0 n s) = (n `min` String.length s)%nat.
Proof.
  revert n. induction s as [|c s IH]; intros [|n]; simpl; try done.
  f_equal. apply IH.
Qed.

Lemma pretty_N_go_digit (x : N) (s : string) :
  (0 < x < 10)%N → pretty_N_go x s = String (pretty_N_char x) s.
Proof.
  intros Hx. rewrite pretty_N_go_step by lia.
  rewrite N.div_small, N.mod_small by lia. apply pretty_N_go_0.
Qed.

Lemma pretty_N_go_length_le (x : N) (s : string) :
  (String.length s ≤ String.length (pretty_N_go x s))%nat.
Proof.
  revert s. induction (N.lt_wf_0 x) as [x _ IH]; intros s.
  destruct (decide (x = 0%N)) as [->|Hx]; [by rewrite pretty_N_go_0|].
  rewrite pretty_N_go_step by lia.
  etrans; [|apply IH; apply N.div_lt; lia]. simpl. lia.
Qed.

(** A year from 1000 to 9999 is printed with four characters. *)
Lemma pretty_four_digits (y : Z) :
  1000 ≤ y ≤ 9999 → String.length (pretty y) = 4%nat.
Proof.
  intros Hy. destruct y as [|p|p]; try lia.
  unfold pretty, pretty_Z, pretty, pretty_positive, pretty, pretty_N.
  rewrite decide_False by done.
  rewrite pretty_N_go_step by lia.
  rewrite pretty_N_go_step by (apply N.div_str_pos; lia).
  assert (0 < N.pos p / 10 / 10)%N.
  { apply N.div_str_pos. split; [lia|]. apply N.div_le_lower_bound; lia. }
  rewrite pretty_N_go_step by done.
  rewrite pretty_N_go_digit; [done|].
  split.
  - apply N.div_str_pos. split; [lia|]. apply N.div_le_lower_bound; [lia|].
    apply N.div_le_lower_bound; lia.
  - do 3 apply N.Div0.div_lt_upper_bound. lia.
Qed.

(** A year from 10000 on is printed with five characters or more. *)
Lemma pretty_five_digits (y : Z) :
  10000 ≤ y → (5 ≤ String.length (pretty y))%nat.
Proof.
  intros Hy. destruct y as [|p|p]; try lia.
  unfold pretty, pretty_Z, pretty, pretty_positive, pretty, pretty_N.
  rewrite decide_False by done.
  assert (0 < N.pos p / 10)%N by (apply N.div_str_pos; lia).
  assert (0 < N.pos p / 10 / 10)%N.
  { apply N.div_str_pos. split; [lia|]. apply N.div_le_lower_bound; lia. }
  assert (0 < N.pos p / 10 / 10 / 10)%N.
  { apply N.div_str_pos. split; [lia|]. apply N.div_le_lower_bound; [lia|].
    apply N.div_le_lower_bound; lia. }
  assert (0 < N.pos p / 10 / 10 / 10 / 10)%N.
  { apply N.div_str_pos. split; [lia|]. apply N.div_le_lower_bound; [lia|].
    apply N.div_le_lower_bound; [lia|]. apply N.div_le_lower_bound; lia. }
  do 5 (rewrite pretty_N_go_step by (done || lia)).
  etrans; [|apply pretty_N_go_length_le]. simpl. lia.
Qed.

(** The two-character month of the twelve months. *)
Lemma padStart2_month_length (m : Z) :
  1 ≤ m ≤ 12 → String.length (padStart2 (pretty m)) = 2%nat.
Proof.
  intros Hm.
  assert (m ∈ seqZ 1 12) as Hin by (apply elem_of_seqZ; lia).
  change (seqZ 1 12) with [1;2;3;4;5;6;7;8;9;10;11;12] in Hin.
  repeat (apply elem_of_cons in Hin as [->|Hin]; [by vm_compute|]).
  by apply elem_of_nil in Hin.
Qed.

Lemma monthColumn_date_key (year m : Z) :
  MonthColumn.date (monthColumn year m)
  = MonthColumn.key (monthColumn year m) +:+ "-01".
Proof.
  unfold monthColumn. cbn [MonthColumn.date MonthColumn.key].
  by rewrite !string_app_assoc.
Qed.

Lemma monthColumn_key_length (year m : Z) :
  1 ≤ m ≤ 12 →
  String.length (MonthColumn.key (monthColumn year m))
  = (String.length (pretty year) + 3)%nat.
Proof.
  intros Hm. unfold monthColumn. cbn [MonthColumn.key].
  rewrite !string_length_app, padStart2_month_length by done.
  simpl. lia.
Qed.

(** The key is the first seven characters of the date exactly when it has
    seven characters. *)
Lemma monthColumn_substring07 (year m : Z) :
  substring07 (MonthColumn.date (monthColumn year m))
  = MonthColumn.key (monthColumn year m)
  ↔ String.length (MonthColumn.key (monthColumn year m)) = 7%nat.
Proof.
  rewrite monthColumn_date_key. unfold substring07. split.
  - intros Heq. apply (f_equal String.length) in Heq.
    rewrite substring_length, string_length_app in Heq.
    change (String.length "-01") with 3%nat in Heq. lia.
  - intros <-. apply substring_prefix.
Qed.

(** ** Further lemmas: the pivot *)

Lemma emptyMonths_bulan_tahun f mk c :
  emptyMonths (monthColumns f) !! mk = Some c →
  MonthData.id c = None ∧ MonthData.bulan_tahun c = mk +:+ "-01".
Proof.
  unfold monthColumns.
  induction (seqZ _ _) as [|m ms IH] using rev_ind.
  - unfold emptyMonths. simpl. by rewrite lookup_empty.
  - rewrite fmap_app. simpl. rewrite emptyMonths_snoc.
    intros [[<- <-]|[_ ?]]%lookup_insert_Some; [|auto].
    split; [done|]. apply monthColumn_date_key.
Qed.

(** A cell of a filled row is the cell of a record or the cell the row
    had. *)
Lemma fillRows_months_origin p plans row mk c :
  PivotedProductRow.months (fillRows p plans row) !! mk = Some c →
  (∃ plan, plan ∈ plans ∧ c = monthDataOfPlan plan)
  ∨ PivotedProductRow.months row !! mk = Some c.
Proof.
  revert row. induction plans as [|plan plans IH]; intros row; [by right|].
  rewrite fillRows_cons. intros [(pl & Hin & ->)|Hc]%IH.
  - left. exists pl. split; [by right | done].
  - case_decide; [|by right]. rewrite fillRow_months in Hc.
    case_decide; [|by right]. injection Hc as <-.
    left. exists plan. split; [left | done].
Qed.

Lemma cellIn_pivot_candidate f ps plans pid mk c :
  cellIn pid mk (pivot f ps plans) = Some c → pid ∈ candidateIds f ps.
Proof.
  intros Hc. unfold candidateIds.
  rewrite <- (initRows_keys_elem f (monthColumns f)),
          <- (pivot_product_ids f ps plans).
  unfold cellIn in Hc.
  destruct (findRow pid (pivot f ps plans)) as [[i row]|] eqn:Hfind; [|done].
  apply findRow_Some in Hfind as [Hi <-].
  apply list_elem_of_fmap. exists row. split; [done|].
  by eapply list_elem_of_lookup_2.
Qed.

Lemma editCell_bulan_tahun fld v c :
  MonthData.id (editCell fld v c) = MonthData.id c
  ∧ MonthData.bulan_tahun (editCell fld v c) = MonthData.bulan_tahun c
  ∧ MonthData.bulan_label (editCell fld v c) = MonthData.bulan_label c.
Proof. by destruct c, fld. Qed.

(** ** Further lemmas: month columns *)

Lemma monthColumns_head f :
  PlanningFilter.startMonth f ≤ PlanningFilter.endMonth f →
  head (monthColumns f)
  = Some (monthColumn (PlanningFilter.year f) (PlanningFilter.startMonth f)).
Proof.
  intros Hle. unfold monthColumns. rewrite seqZ_cons by lia. done.
Qed.

Lemma monthColumns_last f :
  PlanningFilter.startMonth f ≤ PlanningFilter.endMonth f →
  last (monthColumns f)
  = Some (monthColumn (PlanningFilter.year f) (PlanningFilter.endMonth f)).
Proof.
  intros Hle. unfold monthColumns. rewrite fmap_last.
  set (n := PlanningFilter.endMonth f - PlanningFilter.startMonth f).
  replace (n + 1) with (Z.of_nat (S (Z.to_nat n))) by lia.
  rewrite seqZ_S, last_snoc. simpl. f_equal. f_equal. lia.
Qed.

(** ** Further lemmas: the cell editor and the tracker *)

Lemma js_set_set {V} (k : string) (v v' : V) (m : JsMap V) :
  js_set k v (js_set k v' m) = js_set k v m.
Proof.
  induction m as [|[k0 v0] m IH]; simpl.
  - by rewrite String.eqb_refl.
  - destruct (String.eqb k0 k) eqn:E; simpl.
    + by rewrite String.eqb_refl.
    + rewrite E. f_equal. apply IH.
Qed.


Lemma editCell_overwrite fld v1 v2 c :
  editCell fld v2 (editCell fld v1 c) = editCell fld v2 c.
Proof. by destruct c, fld. Qed.

(** The tracker after an [updateCell], found or not. *)
Lemma modifiedCells_updateCell_cases p mk fld v s :
  modifiedCells (updateCell p mk fld v s)
  = match cellAt p mk s with
    | Some c => js_set (cellKey p mk) (editCell fld v c) (modifiedCells s)
    | None => modifiedCells s
    end.
Proof.
  destruct (cellAt p mk s) as [c|] eqn:Hc.
  - by apply modifiedCells_updateCell.
  - by rewrite updateCell_noop.
Qed.

(** Cells that exist in a store with clean month keys have different
    tracker keys. *)
Lemma cellKey_ne s p1 mk1 p2 mk2 :
  monthKeysClean (pivotedData s) →
  is_Some (cellAt p1 mk1 s) → is_Some (cellAt p2 mk2 s) →
  (p1, mk1) ≠ (p2, mk2) → cellKey p1 mk1 ≠ cellKey p2 mk2.
Proof.
  intros Hclean H1 H2 Hne Heq. apply Hne.
  apply cellKey_inj in Heq as [-> ->]; [done|by eapply cellAt_clean..].
Qed.

Lemma updateCell_trackerMatchesGrid p0 mk0 fld v s :
  monthKeysClean (pivotedData s) →
  trackerMatchesGrid s → trackerMatchesGrid (updateCell p0 mk0 fld v s).
Proof.
  intros Hclean HJ.
  destruct (cellAt p0 mk0 s) as [c0|] eqn:Hc0;
    [|by rewrite updateCell_noop].
  intros p mk c. rewrite cellAt_updateCell.
  rewrite (modifiedCells_updateCell _ _ _ _ _ _ Hc0).
  case_decide as Heq.
  - destruct Heq as [-> ->]. rewrite Hc0. simpl. intros [= <-].
    by rewrite js_get_set_eq, editCell_isModified.
  - intros Hc. rewrite js_get_set_ne; [by apply HJ|].
    apply (cellKey_ne s); [done|by rewrite Hc0|by rewrite Hc|].
    intros [= -> ->]. by apply Heq.
Qed.

Lemma applyEdits_trackerMatchesGrid es s :
  monthKeysClean (pivotedData s) →
  trackerMatchesGrid s → trackerMatchesGrid (applyEdits es s).
Proof.
  revert s. induction es as [|e es IH]; intros s Hclean HJ; [done|].
  rewrite applyEdits_cons. apply IH.
  - by apply updateCell_monthKeysClean.
  - by apply updateCell_trackerMatchesGrid.
Qed.

(** [updateCell] on a cell that is found. *)
Lemma updateCell_found p mk fld v s i row c :
  findRow p (pivotedData s) = Some (i, row) →
  PivotedProductRow.months row !! mk = Some c →
  updateCell p mk fld v s
  = set_modifiedCells
      (js_set (cellKey p mk) (editCell fld v c) (modifiedCells s))
      (set_pivotedData
         (<[i := set_months (<[mk := editCell fld v c]>
                               (PivotedProductRow.months row)) row]>
            (pivotedData s)) s).
Proof. intros Hfind Hc. unfold updateCell. by rewrite Hfind, Hc. Qed.

(** ** Further lemmas: commit and tracker *)

Lemma split_head (s : string) :
  split "_"%char s !! 0%nat = Some (beforeUnderscore s).
Proof.
  induction s as [|c s IH]; simpl; [done|].
  destruct (Ascii.eqb c "_"); [done|].
  destruct (split "_" s) as [|p ps]; simpl in *; [done|].
  by injection IH as ->.
Qed.

Lemma beforeUnderscore_app_underscore (a t : string) :
  beforeUnderscore (a +:+ "_" +:+ t) = beforeUnderscore a.
Proof.
  induction a as [|c a IH]; [done|].
  rewrite string_app_cons. simpl. destruct (Ascii.eqb c "_"); [done|].
  f_equal. apply IH.
Qed.

Lemma beforeUnderscore_clean (a : string) :
  has_underscore a = false → beforeUnderscore a = a.
Proof.
  induction a as [|c a IH]; simpl; [done|].
  intros [-> Ha]%orb_false_elim. f_equal. by apply IH.
Qed.

Lemma upsertRecordOf_truthy (rid key : string) (c : MonthData.t) :
  rid ≠ "" →
  upsertRecordOf (Some rid) (key, c)
  = if decide (beforeUnderscore key ≠ "")
    then Some (writeRecord (beforeUnderscore key) rid c) else None.
Proof.
  intros Hrid. unfold upsertRecordOf.
  rewrite split_head, (truthy_Some rid) by done.
  destruct (decide (beforeUnderscore key = "")) as [Hk|Hk].
  - rewrite decide_False by (intros Hne; by apply Hne). by rewrite Hk.
  - rewrite decide_True by done. by rewrite (truthy_Some _ Hk).
Qed.

Lemma omap_cons_None {A B} (g : A → option B) x l :
  g x = None → omap g (x :: l) = omap g l.
Proof. intros Hx. csimpl. by rewrite Hx. Qed.

Lemma runAction_keeps_keys (s : Store) (a : Action) (k : string) :
  clearsTracker a = false →
  k ∈ js_keys (modifiedCells s) →
  k ∈ js_keys (modifiedCells (runAction s a)).
Proof.
  intros Ha Hk. destruct a as [a b|r|p mk fld v|[e|] fe| |fl r];
    try done; simpl.
  - unfold fetchMasterData.
    destruct (resp_error a); [done|]. by destruct (resp_error b).
  - by rewrite fetchSalesPlans_modifiedCells.
  - rewrite modifiedCells_updateCell_cases.
    destruct (cellAt p mk s); [|done]. apply js_keys_set_elem. by right.
  - unfold saveChanges. by destruct (hasUnsavedChanges s).
  - by rewrite setFilter_modifiedCells.
Qed.

(** ** Further lemmas: the rows of the pivot *)

Lemma js_get_cons {V} (k k' : string) (v : V) (m : JsMap V) :
  js_get k ((k', v) :: m) = if decide (k' = k) then Some v else js_get k m.
Proof.
  simpl. case_decide as Hk.
  - by apply String.eqb_eq in Hk as ->.
  - by apply String.eqb_neq in Hk as ->.
Qed.

Lemma js_set_cons {V} (k k' : string) (v v' : V) (m : JsMap V) :
  js_set k v ((k', v') :: m)
  = if decide (k' = k) then (k, v) :: m else (k', v') :: js_set k v m.
Proof.
  simpl. case_decide as Hk.
  - by apply String.eqb_eq in Hk as ->.
  - by apply String.eqb_neq in Hk as ->.
Qed.

Lemma fillPlan_cons k v (m : JsMap PivotedProductRow.t) plan :
  fillPlan ((k, v) :: m) plan
  = if decide (k = SalesPlanDetail.product_id plan)
    then (k, fillRow plan v) :: m
    else (k, v) :: fillPlan m plan.
Proof.
  unfold fillPlan. rewrite js_get_cons. case_decide as Hk.
  - rewrite js_set_cons, decide_True by done. by subst k.
  - destruct (js_get _ m); [|done]. by rewrite js_set_cons, decide_False.
Qed.

Lemma fillPlan_fmap (g : MasterProduct.t → PivotedProductRow.t) fps plan :
  NoDup (MasterProduct.id <$> fps) →
  fillPlan ((fun p => (MasterProduct.id p, g p)) <$> fps) plan
  = (fun p => (MasterProduct.id p,
               if decide (SalesPlanDetail.product_id plan = MasterProduct.id p)
               then fillRow plan (g p) else g p)) <$> fps.
Proof.
  induction fps as [|p fps IH]; [done|].
  rewrite fmap_cons, NoDup_cons. intros [Hnin Hnd].
  rewrite !fmap_cons, fillPlan_cons. case_decide as Hp.
  - rewrite decide_True by done. f_equal.
    apply list_fmap_ext. intros i q Hq.
    rewrite decide_False; [done|].
    intros Heq. apply Hnin. rewrite Hp, Heq.
    apply list_elem_of_fmap. exists q. split; [done|].
    by eapply list_elem_of_lookup_2.
  - rewrite decide_False by done. f_equal. by apply IH.
Qed.

Lemma fillPlans_fmap (g : MasterProduct.t → PivotedProductRow.t) fps plans :
  NoDup (MasterProduct.id <$> fps) →
  foldl fillPlan ((fun p => (MasterProduct.id p, g p)) <$> fps) plans
  = (fun p => (MasterProduct.id p, fillRows (MasterProduct.id p) plans (g p)))
      <$> fps.
Proof.
  intros Hnd. revert g. induction plans as [|plan plans IH]; intros g; [done|].
  simpl. rewrite fillPlan_fmap by done. rewrite IH.
  apply list_fmap_ext. intros i p _. reflexivity.
Qed.

(** With pairwise different ids each row of the pivot is the row of its
    product, filled with the records of that product. *)
Lemma pivot_formula f ps plans :
  NoDup (MasterProduct.id <$> ps) →
  pivot f ps plans
  = (fun p => fillRows (MasterProduct.id p) plans
                (initialRow f (monthColumns f) p))
      <$> filteredProducts f ps.
Proof.
  intros Hnd. rewrite pivot_pivotMap. unfold pivotMap.
  rewrite initRows_NoDup by by apply filteredProducts_NoDup.
  rewrite fillPlans_fmap by by apply filteredProducts_NoDup.
  unfold js_values. by rewrite <- list_fmap_compose.
Qed.

Lemma fillRows_rowProduct p plans row :
  rowProduct (fillRows p plans row) = rowProduct row.
Proof.
  revert row. induction plans as [|plan plans IH]; intros row; [done|].
  rewrite fillRows_cons, IH. case_decide; [apply fillRow_rowProduct | done].
Qed.

Lemma fillRows_kategori p plans row :
  PivotedProductRow.kategori (fillRows p plans row)
  = PivotedProductRow.kategori row.
Proof.
  change (MasterProduct.kategori (rowProduct (fillRows p plans row))
          = MasterProduct.kategori (rowProduct row)).
  by rewrite fillRows_rowProduct.
Qed.

Lemma fillRow_region_id plan row :
  PivotedProductRow.region_id (fillRow plan row)
  = PivotedProductRow.region_id row
  ∧ PivotedProductRow.region_kode (fillRow plan row)
    = SalesPlanDetail.region_kode plan.
Proof. unfold fillRow. simpl. by case_match. Qed.

Lemma fillRows_snoc p plans plan row :
  fillRows p (plans ++ [plan]) row
  = if decide (SalesPlanDetail.product_id plan = p)
    then fillRow plan (fillRows p plans row) else fillRows p plans row.
Proof. by rewrite fillRows_app. Qed.

Lemma fillRows_region p plans row :
  PivotedProductRow.region_id (fillRows p plans row)
  = PivotedProductRow.region_id row
  ∧ PivotedProductRow.region_kode (fillRows p plans row)
    = match last (plansOf p plans) with
      | Some plan => SalesPlanDetail.region_kode plan
      | None => PivotedProductRow.region_kode row
      end.
Proof.
  induction plans as [|plan plans [IHid IHkode]] using rev_ind; [done|].
  rewrite fillRows_snoc. unfold plansOf. rewrite filter_app.
  rewrite filter_cons, filter_nil. case_decide as Hp.
  - rewrite last_snoc. destruct (fillRow_region_id plan (fillRows p plans row))
      as [-> ->]. done.
  - by rewrite app_nil_r.
Qed.

Lemma js_get_elem_NoDup {V} (k : string) (v : V) (m : JsMap V) :
  NoDup (js_keys m) → (k, v) ∈ m → js_get k m = Some v.
Proof.
  unfold js_keys. induction m as [|[k' v'] m IH]; [by intros _ ?%elem_of_nil|].
  rewrite fmap_cons, NoDup_cons. intros [Hnin Hnd] [[= <- <-]|Hin]%elem_of_cons.
  - simpl. by rewrite String.eqb_refl.
  - simpl. destruct (String.eqb k' k) eqn:E; [|by apply IH].
    apply String.eqb_eq in E as ->. exfalso. apply Hnin.
    apply list_elem_of_fmap. by exists (k, v).
Qed.

(** Every row of the pivot is an initial row filled with the plans. *)
Lemma pivot_row_origin f ps plans row :
  row ∈ pivot f ps plans →
  ∃ p, p ∈ filteredProducts f ps
       ∧ PivotedProductRow.product_id row = MasterProduct.id p
       ∧ row = fillRows (MasterProduct.id p) plans
                 (initialRow f (monthColumns f) p).
Proof.
  rewrite pivot_pivotMap. unfold js_values.
  intros ([k r] & -> & Hin)%list_elem_of_fmap. simpl.
  assert (js_get k (pivotMap f ps plans) = Some r) as Hget.
  { apply js_get_elem_NoDup; [|done]. unfold pivotMap.
    rewrite fillPlans_keys. apply initRows_keys_NoDup. }
  unfold pivotMap in Hget. rewrite js_get_fillPlans in Hget.
  destruct (js_get k (initRows _ _ _)) as [row0|] eqn:Hrow0; [|done].
  injection Hget as <-.
  assert (∃ p, p ∈ filteredProducts f ps ∧ MasterProduct.id p = k
               ∧ row0 = initialRow f (monthColumns f) p) as (p & Hp & <- & ->).
  { clear Hin. revert row0 Hrow0.
    induction (filteredProducts f ps) as [|q qs IH] using rev_ind;
      intros row0; [done|].
    rewrite initRows_snoc.
    destruct (decide (MasterProduct.id q = k)) as [<-|Hne].
    - rewrite js_get_set_eq. intros [= <-]. exists q.
      split; [|done]. apply elem_of_app. right. left.
    - rewrite js_get_set_ne by done. intros (p & Hp & ? & ?)%IH.
      exists p. split; [|done]. apply elem_of_app. by left. }
  exists p. split; [done|]. split; [|done].
  change (MasterProduct.id (rowProduct (fillRows (MasterProduct.id p) plans
            (initialRow f (monthColumns f) p))) = MasterProduct.id p).
  by rewrite fillRows_rowProduct, rowProduct_initialRow.
Qed.

(** Lists of users. *)
Lemma filter_insert_outside {A} (P : A → Prop) `{∀ x, Decision (P x)}
    (l : list A) (i : nat) (x y : A) :
  l !! i = Some x → ¬ P x → ¬ P y → filter P (<[i := y]> l) = filter P l.
Proof.
  revert i. induction l as [|z l IH]; intros [|i] Hi Hx Hy; try done.
  - injection Hi as ->. simpl. rewrite !filter_cons.
    by rewrite !decide_False by done.
  - simpl. rewrite !filter_cons. rewrite (IH i) by done. done.
Qed.

Lemma fmap_insert_same {A B} (g : A → B) (l : list A) (i : nat) (x y : A) :
  l !! i = Some x → g y = g x → g <$> <[i := y]> l = g <$> l.
Proof.
  intros Hi Hg. rewrite list_fmap_insert, Hg.
  apply list_insert_id. by rewrite list_lookup_fmap, Hi.
Qed.

Lemma updateUser_users (userId : string) (updates : PartialUserProfile.t)
    (now : string) (s : UserStore.t) :
  let users' := UserStore.users (updateUser userId updates now None s).1.1 in
  (users' = UserStore.users s
   ∧ ∀ u, u ∈ UserStore.users s → UserProfile.id u ≠ userId)
  ∨ ∃ i u, UserStore.users s !! i = Some u ∧ UserProfile.id u = userId
           ∧ (∀ j v, UserStore.users s !! j = Some v → (j < i)%nat →
                     UserProfile.id v ≠ userId)
           ∧ users' = <[i := mergeUser u updates]> (UserStore.users s).
Proof.
  unfold updateUser. simpl.
  destruct (list_find _ _) as [[i u]|] eqn:Hfind.
  - right. apply list_find_Some in Hfind as (Hi & Hu & Hfirst).
    exists i, u. split_and!; try done.
  - left. split; [done|]. apply list_find_None in Hfind.
    intros u Hu. by apply (proj1 (Forall_forall _ _) Hfind).
Qed.

(* ===================================================================== *)
(** ** Further properties of the code *)
(* ===================================================================== *)

(** *** Month columns and the fetch that matches them *)

(** X1.  For each of the twelve months the date of a month column is its
    key followed by [-01]; with a four-digit year the key is the first
    seven characters of the date, which is how the transform maps a
    record's month back to a column; from the year 10000 on it is not. *)
Theorem X1_month_key_round_trip (year m : Z) :
  1 ≤ m ≤ 12 →
  let col := monthColumn year m in
  MonthColumn.date col = MonthColumn.key col +:+ "-01"
  ∧ (1000 ≤ year ≤ 9999 →
     substring07 (MonthColumn.date col) = MonthColumn.key col)
  ∧ (10000 ≤ year →
     substring07 (MonthColumn.date col) ≠ MonthColumn.key col).
Proof.
  intros Hm col. unfold col. split_and!.
  - apply monthColumn_date_key.
  - intros Hy. apply monthColumn_substring07.
    by rewrite monthColumn_key_length, pretty_four_digits.
  - intros Hy Heq%monthColumn_substring07.
    rewrite monthColumn_key_length in Heq by done.
    pose proof (pretty_five_digits year Hy). lia.
Qed.

Lemma X1_witness :
  1 ≤ 2 ≤ 12
  ∧ let col := monthColumn 2026 2 in
    MonthColumn.date col = MonthColumn.key col +:+ "-01"
    ∧ (1000 ≤ 2026 ≤ 9999 →
       substring07 (MonthColumn.date col) = MonthColumn.key col)
    ∧ (10000 ≤ 2026 →
       substring07 (MonthColumn.date col) ≠ MonthColumn.key col).
Proof.
  split; [lia|]. apply (X1_month_key_round_trip 2026 2). lia.
Defined.

(** X2.  In the output of the transform a cell without identifier was
    synthesised for its column: its [bulan_tahun] is its month key
    followed by [-01], the first day of the month; a cell with an
    identifier is the cell of one of the planning records.  An edit
    changes neither the identifier nor [bulan_tahun] nor the label, so
    the snapshot that is tracked for a new cell, and the write record
    made from it, carry the first day of the month. *)
Theorem X2_new_cells_carry_first_of_month
    (f : PlanningFilter.t) (ps : list MasterProduct.t)
    (plans : list SalesPlanDetail.t) (pid mk : string) (c : MonthData.t) :
  cellIn pid mk (pivot f ps plans) = Some c →
  (MonthData.id c = None → MonthData.bulan_tahun c = mk +:+ "-01")
  ∧ (MonthData.id c ≠ None →
     ∃ plan, plan ∈ plans ∧ c = monthDataOfPlan plan)
  ∧ ∀ fld v rid,
      MonthData.id (editCell fld v c) = MonthData.id c
      ∧ MonthData.bulan_tahun (editCell fld v c) = MonthData.bulan_tahun c
      ∧ UpsertRecord.bulan_tahun (writeRecord pid rid (editCell fld v c))
        = MonthData.bulan_tahun c.
Proof.
  intros Hc.
  pose proof (cellIn_pivot_candidate _ _ _ _ _ _ Hc) as Hpid.
  destruct (pivot_cell f ps plans pid mk Hpid) as (row0 & Hmonths & Heq).
  rewrite Heq in Hc.
  apply fillRows_months_origin in Hc as [(plan & Hin & ->)|Hc].
  - split_and!; [done| |].
    + intros _. by exists plan.
    + intros fld v rid.
      destruct (editCell_bulan_tahun fld v (monthDataOfPlan plan))
        as (Hi & Hb & _).
      split_and!; [exact Hi | exact Hb | exact Hb].
  - rewrite Hmonths in Hc. apply emptyMonths_bulan_tahun in Hc as [Hid Hbt].
    split_and!; [done| |].
    + by rewrite Hid.
    + intros fld v rid.
      destruct (editCell_bulan_tahun fld v c) as (Hi & Hb & _).
      split_and!; [exact Hi | exact Hb | exact Hb].
Qed.

Lemma X2_witness :
  cellIn "P1" "2026-02" (pivot demoFilter [demoProduct] [demoPlan])
  = Some (createEmptyMonthData "2026-02-01" "Feb 2026")
  ∧ let c := createEmptyMonthData "2026-02-01" "Feb 2026" in
    (MonthData.id c = None → MonthData.bulan_tahun c = "2026-02" +:+ "-01")
    ∧ (MonthData.id c ≠ None →
       ∃ plan, plan ∈ [demoPlan] ∧ c = monthDataOfPlan plan)
    ∧ ∀ fld v rid,
        MonthData.id (editCell fld v c) = MonthData.id c
        ∧ MonthData.bulan_tahun (editCell fld v c) = MonthData.bulan_tahun c
        ∧ UpsertRecord.bulan_tahun (writeRecord "P1" rid (editCell fld v c))
          = MonthData.bulan_tahun c.
Proof.
  assert (cellIn "P1" "2026-02" (pivot demoFilter [demoProduct] [demoPlan])
          = Some (createEmptyMonthData "2026-02-01" "Feb 2026")) as Hc
    by by vm_compute.
  split; [exact Hc|].
  exact (X2_new_cells_carry_first_of_month demoFilter [demoProduct] [demoPlan]
           "P1" "2026-02" _ Hc).
Defined.

(** X3.  With a four-digit year and months within 1 to 12, a planning
    record of a candidate product whose [bulan_tahun] is the date of a
    month column of the range is shown in the cell of that column,
    provided no other record has the same position: what is written for
    a column comes back into that column. *)
Theorem X3_record_lands_in_its_column
    (f : PlanningFilter.t) (ps : list MasterProduct.t)
    (plans : list SalesPlanDetail.t) (m : Z) (plan : SalesPlanDetail.t) :
  1000 ≤ PlanningFilter.year f ≤ 9999 →
  1 ≤ PlanningFilter.startMonth f → PlanningFilter.endMonth f ≤ 12 →
  PlanningFilter.startMonth f ≤ m ≤ PlanningFilter.endMonth f →
  NoDup (planPosition <$> plans) →
  plan ∈ plans →
  SalesPlanDetail.product_id plan ∈ candidateIds f ps →
  SalesPlanDetail.bulan_tahun plan
  = MonthColumn.date (monthColumn (PlanningFilter.year f) m) →
  cellIn (SalesPlanDetail.product_id plan)
         (MonthColumn.key (monthColumn (PlanningFilter.year f) m))
         (pivot f ps plans)
  = Some (monthDataOfPlan plan).
Proof.
  intros Hy Hlo Hhi Hm Hnd Hplan Hpid Hdate.
  assert (substring07 (SalesPlanDetail.bulan_tahun plan)
          = MonthColumn.key (monthColumn (PlanningFilter.year f) m)) as Hkey.
  { rewrite Hdate. apply monthColumn_substring07.
    rewrite monthColumn_key_length, pretty_four_digits by lia. done. }
  destruct (pivot_cell f ps plans _
              (MonthColumn.key (monthColumn (PlanningFilter.year f) m)) Hpid)
    as (row0 & Hmonths & ->).
  apply list_elem_of_split in Hplan as (l1 & l2 & ->).
  apply fillRows_months_last.
  - unfold planPosition. by rewrite Hkey.
  - rewrite fmap_app, fmap_cons in Hnd.
    apply NoDup_app in Hnd as (_ & _ & Hnd).
    apply NoDup_cons in Hnd as [Hnin _].
    unfold planPosition in Hnin at 1. by rewrite Hkey in Hnin.
  - rewrite Hmonths. apply emptyMonths_is_Some.
    change (MonthColumn.key <$> monthColumns f) with (monthKeys f).
    apply monthKeys_elem. by exists m.
Qed.

Lemma X3_witness :
  1000 ≤ PlanningFilter.year demoFilter ≤ 9999
  ∧ 1 ≤ PlanningFilter.startMonth demoFilter
  ∧ PlanningFilter.endMonth demoFilter ≤ 12
  ∧ PlanningFilter.startMonth demoFilter ≤ 1
    ≤ PlanningFilter.endMonth demoFilter
  ∧ NoDup (planPosition <$> [demoPlan])
  ∧ demoPlan ∈ [demoPlan]
  ∧ SalesPlanDetail.product_id demoPlan ∈ candidateIds demoFilter [demoProduct]
  ∧ SalesPlanDetail.bulan_tahun demoPlan
    = MonthColumn.date (monthColumn (PlanningFilter.year demoFilter) 1)
  ∧ cellIn (SalesPlanDetail.product_id demoPlan)
           (MonthColumn.key (monthColumn (PlanningFilter.year demoFilter) 1))
           (pivot demoFilter [demoProduct] [demoPlan])
    = Some (monthDataOfPlan demoPlan).
Proof.
  assert (1000 ≤ PlanningFilter.year demoFilter ≤ 9999) as H1 by (simpl; lia).
  assert (1 ≤ PlanningFilter.startMonth demoFilter) as H2 by (simpl; lia).
  assert (PlanningFilter.endMonth demoFilter ≤ 12) as H3 by (simpl; lia).
  assert (PlanningFilter.startMonth demoFilter ≤ 1
          ≤ PlanningFilter.endMonth demoFilter) as H4 by (simpl; lia).
  assert (NoDup (planPosition <$> [demoPlan])) as H5 by apply NoDup_singleton.
  assert (demoPlan ∈ [demoPlan]) as H6 by left.
  assert (SalesPlanDetail.product_id demoPlan
          ∈ candidateIds demoFilter [demoProduct]) as H7 by (vm_compute; left).
  assert (SalesPlanDetail.bulan_tahun demoPlan
          = MonthColumn.date (monthColumn (PlanningFilter.year demoFilter) 1))
    as H8 by by vm_compute.
  repeat (split; [assumption|]).
  exact (X3_record_lands_in_its_column demoFilter [demoProduct] [demoPlan] 1
           demoPlan H1 H2 H3 H4 H5 H6 H7 H8).
Defined.

(** X4.  With a region selected and [startMonth <= endMonth],
    [fetchSalesPlans] sends exactly one query, for that region and the
    category of the filter, whose date range runs from the date of the
    first month column to the date of the last one: what is fetched is
    what the columns show.  It sends the same query whether the answer
    is an error or not. *)
Theorem X4_fetch_range_is_column_range
    (resp : response (list SalesPlanDetail.t)) (s : Store) (rid : string) :
  PlanningFilter.region_id (currentFilter s) = Some rid → rid ≠ "" →
  PlanningFilter.startMonth (currentFilter s)
  ≤ PlanningFilter.endMonth (currentFilter s) →
  ∃ first final,
    head (monthColumns (currentFilter s)) = Some first
    ∧ last (monthColumns (currentFilter s)) = Some final
    ∧ (fetchSalesPlans resp s).2
      = [SelectSalesPlans rid (MonthColumn.date first) (MonthColumn.date final)
           (PlanningFilter.kategori (currentFilter s))].
Proof.
  intros Hregion Hrid Hle.
  eexists _, _. split; [by apply monthColumns_head|].
  split; [by apply monthColumns_last|].
  unfold fetchSalesPlans. rewrite Hregion, truthy_Some by done. simpl.
  by destruct (resp_error resp).
Qed.

Lemma X4_witness :
  PlanningFilter.region_id (currentFilter demoStore) = Some "R1"
  ∧ "R1" ≠ ""
  ∧ PlanningFilter.startMonth (currentFilter demoStore)
    ≤ PlanningFilter.endMonth (currentFilter demoStore)
  ∧ ∃ first final,
      head (monthColumns (currentFilter demoStore)) = Some first
      ∧ last (monthColumns (currentFilter demoStore)) = Some final
      ∧ (fetchSalesPlans failedFetch demoStore).2
        = [SelectSalesPlans "R1" (MonthColumn.date first)
             (MonthColumn.date final)
             (PlanningFilter.kategori (currentFilter demoStore))].
Proof.
  assert (PlanningFilter.region_id (currentFilter demoStore) = Some "R1")
    as H1 by by vm_compute.
  assert ("R1" ≠ "") as H2 by done.
  assert (PlanningFilter.startMonth (currentFilter demoStore)
          ≤ PlanningFilter.endMonth (currentFilter demoStore))
    as H3 by by vm_compute.
  repeat (split; [assumption|]).
  exact (X4_fetch_range_is_column_range failedFetch demoStore "R1" H1 H2 H3).
Defined.

(** *** Editing *)

(** X5.  Within one cell and one field the last write wins: two
    successive [updateCell] calls on the same cell and field leave the
    store exactly as the second call alone does, pivot, tracker and all.
    In particular repeating an edit changes nothing. *)
Theorem X5_last_write_wins
    (s : Store) (p mk : string) (fld : MonthDataKey) (v1 v2 : Z) :
  updateCell p mk fld v2 (updateCell p mk fld v1 s) = updateCell p mk fld v2 s.
Proof.
  destruct (cellAt p mk s) as [c|] eqn:Hc;
    [|by rewrite !(updateCell_noop p mk _ _ s)].
  unfold cellAt, cellIn in Hc.
  destruct (findRow p (pivotedData s)) as [[i row]|] eqn:Hfind; [|done].
  pose proof (findRow_Some _ _ _ _ Hfind) as [Hi Hp].
  rewrite (updateCell_found p mk fld v1 s i row c Hfind Hc).
  remember (set_months (<[mk := editCell fld v1 c]>
                          (PivotedProductRow.months row)) row)
    as row1 eqn:Hrow1.
  assert (PivotedProductRow.product_id row1
          = PivotedProductRow.product_id row) as Hid by by subst row1.
  rewrite (updateCell_found p mk fld v2 s i row c Hfind Hc).
  rewrite (updateCell_found p mk fld v2 _ i row1 (editCell fld v1 c)).
  - cbn [modifiedCells pivotedData set_modifiedCells set_pivotedData
         products regions salesPlanDetails isLoading isSaving error
         currentFilter].
    rewrite editCell_overwrite, js_set_set, list_insert_insert_eq.
    subst row1. unfold set_months.
    cbn [PivotedProductRow.months PivotedProductRow.product_id
         PivotedProductRow.kode_barang PivotedProductRow.nama_produk
         PivotedProductRow.tipe PivotedProductRow.kategori
         PivotedProductRow.std_pallet PivotedProductRow.isi_dus
         PivotedProductRow.region_id PivotedProductRow.region_kode].
    by rewrite insert_insert_eq.
  - cbn [modifiedCells pivotedData set_modifiedCells set_pivotedData].
    rewrite (findRow_insert p (pivotedData s) i row row1 Hi Hid), Hfind.
    cbn [fmap option_fmap option_map fst snd].
    by rewrite decide_True.
  - subst row1. cbn [PivotedProductRow.months set_months].
    apply lookup_insert_eq.
Qed.



(** X7.  [updateCell] has no [case] for [id], [bulan_tahun],
    [bulan_label], [stok_akhir] and [isModified]: called with one of
    these keys on a cell that exists it ignores the value, changes no
    field but [isModified], which it sets, and tracks the cell.  So the
    closing stock cannot be set directly. *)
Theorem X7_keys_without_case
    (s : Store) (p mk : string) (fld : MonthDataKey) (v : Z)
    (c : MonthData.t) :
  fld ∈ [K_id; K_bulan_tahun; K_bulan_label; K_stok_akhir; K_isModified] →
  cellAt p mk s = Some c →
  ∃ c',
    cellAt p mk (updateCell p mk fld v s) = Some c'
    ∧ (∀ k, k ≠ K_isModified → readField k c' = readField k c)
    ∧ MonthData.isModified c' = true
    ∧ js_get (cellKey p mk) (modifiedCells (updateCell p mk fld v s))
      = Some c'
    ∧ hasUnsavedChanges (updateCell p mk fld v s) = true.
Proof.
  intros Hfld Hc. exists (editCell fld v c). split_and!.
  - rewrite cellAt_updateCell, decide_True by done. by rewrite Hc.
  - intros k Hk.
    repeat (apply elem_of_cons in Hfld as [->|Hfld];
            [by destruct c, k|]).
    by apply elem_of_nil in Hfld.
  - apply editCell_isModified.
  - rewrite (modifiedCells_updateCell _ _ _ _ _ _ Hc). apply js_get_set_eq.
  - apply hasUnsavedChanges_true.
    rewrite (modifiedCells_updateCell _ _ _ _ _ _ Hc).
    by destruct (modifiedCells s) as [|[k0 c0] m]; simpl;
      [|destruct (String.eqb _ _)].
Qed.

Lemma X7_witness :
  K_stok_akhir ∈ [K_id; K_bulan_tahun; K_bulan_label; K_stok_akhir;
                  K_isModified]
  ∧ cellAt "P1" "2026-01" demoStore = Some (monthDataOfPlan demoPlan)
  ∧ ∃ c',
      cellAt "P1" "2026-01"
             (updateCell "P1" "2026-01" K_stok_akhir 5 demoStore)
      = Some c'
      ∧ (∀ k, k ≠ K_isModified →
              readField k c' = readField k (monthDataOfPlan demoPlan))
      ∧ MonthData.isModified c' = true
      ∧ js_get (cellKey "P1" "2026-01")
               (modifiedCells
                  (updateCell "P1" "2026-01" K_stok_akhir 5 demoStore))
        = Some c'
      ∧ hasUnsavedChanges
          (updateCell "P1" "2026-01" K_stok_akhir 5 demoStore) = true.
Proof.
  assert (K_stok_akhir ∈ [K_id; K_bulan_tahun; K_bulan_label; K_stok_akhir;
                          K_isModified]) as H1 by set_solver.
  assert (cellAt "P1" "2026-01" demoStore = Some (monthDataOfPlan demoPlan))
    as H2 by by vm_compute.
  repeat (split; [assumption|]).
  exact (X7_keys_without_case demoStore "P1" "2026-01" K_stok_akhir 5
           (monthDataOfPlan demoPlan) H1 H2).
Defined.

(** X8.  From a store the actions can produce whose tracker is empty and
    in which no cell is marked modified (as a fetch that succeeded or a
    discard leaves it), after any sequence of [updateCell] calls the
    tracker agrees with the grid: a cell is marked modified exactly when
    the tracker has an entry under its key, and that entry is the cell as
    it is now. *)
Theorem X8_tracker_matches_grid (s : Store) (es : list Edit) :
  reachable s →
  modifiedCells s = [] →
  (∀ p mk c, cellAt p mk s = Some c → MonthData.isModified c = false) →
  ∀ p mk c,
    cellAt p mk (applyEdits es s) = Some c →
    js_get (cellKey p mk) (modifiedCells (applyEdits es s))
    = if MonthData.isModified c then Some c else None.
Proof.
  intros [Hclean _]%reachable_inv Hempty Hfresh.
  apply applyEdits_trackerMatchesGrid; [done|].
  intros p mk c Hc. by rewrite Hempty, (Hfresh _ _ _ Hc).
Qed.

Lemma X8_witness :
  reachable demoStore
  ∧ modifiedCells demoStore = []
  ∧ (∀ p mk c, cellAt p mk demoStore = Some c →
               MonthData.isModified c = false)
  ∧ ∀ p mk c,
      cellAt p mk demoEdited = Some c →
      js_get (cellKey p mk) (modifiedCells demoEdited)
      = if MonthData.isModified c then Some c else None.
Proof.
  assert (reachable demoStore) as H1.
  { apply reach_setFilter, reach_fetchMasterData, reach_initial. }
  assert (modifiedCells demoStore = []) as H2 by by vm_compute.
  assert (∀ p mk c, cellAt p mk demoStore = Some c →
                    MonthData.isModified c = false) as H3.
  { intros p mk c.
    change (cellAt p mk demoStore)
      with (cellIn p mk (pivot demoFilter [demoProduct] [demoPlan])).
    apply pivot_cell_unmodified. }
  repeat (split; [assumption|]).
  exact (X8_tracker_matches_grid demoStore
           [mkEdit "P1" "2026-02" K_stok_awal 40] H1 H2 H3).
Defined.

(** *** Fetching, the filter and the commit *)

(** X9.  A [setFilter] that leaves a region selected and whose fetch
    succeeds rebuilds the pivot from the fetched records, so no cell is
    marked modified any more, but it keeps the tracker as it is:
    [hasUnsavedChanges] is unchanged and the pending entries are still
    committed later, although the grid no longer shows them. *)
Theorem X9_refetch_keeps_tracker
    (filter : PartialFilter.t) (resp : response (list SalesPlanDetail.t))
    (s : Store) :
  truthy (PlanningFilter.region_id (mergeFilter (currentFilter s) filter))
  = true →
  resp_error resp = None →
  let s' := (setFilter filter resp s).1 in
  modifiedCells s' = modifiedCells s
  ∧ hasUnsavedChanges s' = hasUnsavedChanges s
  ∧ upsertData s'
    = omap (upsertRecordOf
              (PlanningFilter.region_id
                 (mergeFilter (currentFilter s) filter)))
           (modifiedCells s)
  ∧ pivotedData s'
    = pivot (mergeFilter (currentFilter s) filter) (products s)
            (default [] (resp_data resp))
  ∧ ∀ p mk c, cellAt p mk s' = Some c → MonthData.isModified c = false.
Proof.
  intros Hregion Hresp s'.
  assert (pivotedData s'
          = pivot (mergeFilter (currentFilter s) filter) (products s)
                  (default [] (resp_data resp))) as Hpivot.
  { unfold s', setFilter, fetchSalesPlans.
    cbn [currentFilter set_currentFilter]. rewrite Hregion. simpl.
    by rewrite Hresp. }
  assert (modifiedCells s' = modifiedCells s) as Hm
    by apply setFilter_modifiedCells.
  split_and!.
  - exact Hm.
  - unfold hasUnsavedChanges. by rewrite Hm.
  - unfold upsertData. rewrite Hm. unfold s'.
    by rewrite setFilter_currentFilter.
  - exact Hpivot.
  - intros p mk c. unfold cellAt. rewrite Hpivot.
    apply pivot_cell_unmodified.
Qed.

Lemma X9_witness :
  truthy (PlanningFilter.region_id
            (mergeFilter (currentFilter demoEdited) demoRange)) = true
  ∧ resp_error (Response (Some [demoPlan]) None) = None
  ∧ let s' := (setFilter demoRange (Response (Some [demoPlan]) None)
                         demoEdited).1 in
    modifiedCells s' = modifiedCells demoEdited
    ∧ hasUnsavedChanges s' = hasUnsavedChanges demoEdited
    ∧ upsertData s'
      = omap (upsertRecordOf
                (PlanningFilter.region_id
                   (mergeFilter (currentFilter demoEdited) demoRange)))
             (modifiedCells demoEdited)
    ∧ pivotedData s'
      = pivot (mergeFilter (currentFilter demoEdited) demoRange)
              (products demoEdited)
              (default [] (resp_data (Response (Some [demoPlan]) None)))
    ∧ ∀ p mk c, cellAt p mk s' = Some c → MonthData.isModified c = false.
Proof.
  assert (truthy (PlanningFilter.region_id
                    (mergeFilter (currentFilter demoEdited) demoRange))
          = true) as H1 by by vm_compute.
  assert (resp_error (Response (Some [demoPlan]) None) = None) as H2 by done.
  repeat (split; [assumption|]).
  exact (X9_refetch_keeps_tracker demoRange (Response (Some [demoPlan]) None)
           demoEdited H1 H2).
Defined.

(** X10.  A [setFilter] that leaves no region selected only stores the
    merged filter: it sends nothing and leaves the planning records and
    the pivot on display as they were, whereas [fetchSalesPlans] on the
    resulting store would empty both. *)
Theorem X10_deselecting_region_keeps_pivot
    (filter : PartialFilter.t) (resp : response (list SalesPlanDetail.t))
    (s : Store) :
  truthy (PlanningFilter.region_id (mergeFilter (currentFilter s) filter))
  = false →
  let s' := (setFilter filter resp s).1 in
  setFilter filter resp s
  = (set_currentFilter (mergeFilter (currentFilter s) filter) s, [])
  ∧ pivotedData s' = pivotedData s
  ∧ salesPlanDetails s' = salesPlanDetails s
  ∧ modifiedCells s' = modifiedCells s
  ∧ pivotedData (fetchSalesPlans resp s').1 = []
  ∧ salesPlanDetails (fetchSalesPlans resp s').1 = []
  ∧ (fetchSalesPlans resp s').2 = [].
Proof.
  intros Hregion s'.
  assert (setFilter filter resp s
          = (set_currentFilter (mergeFilter (currentFilter s) filter) s, []))
    as Heq.
  { unfold setFilter. cbn [currentFilter set_currentFilter].
    by rewrite Hregion. }
  unfold s'. rewrite Heq. split_and!; try done;
    unfold fetchSalesPlans; cbn [currentFilter set_currentFilter fst];
    by rewrite Hregion.
Qed.

Lemma X10_witness :
  truthy (PlanningFilter.region_id
            (mergeFilter (currentFilter demoEdited)
               (PartialFilter.mk (Some None) None None None None))) = false
  ∧ let filter := PartialFilter.mk (Some None) None None None None in
    let s' := (setFilter filter failedFetch demoEdited).1 in
    setFilter filter failedFetch demoEdited
    = (set_currentFilter (mergeFilter (currentFilter demoEdited) filter)
         demoEdited, [])
    ∧ pivotedData s' = pivotedData demoEdited
    ∧ salesPlanDetails s' = salesPlanDetails demoEdited
    ∧ modifiedCells s' = modifiedCells demoEdited
    ∧ pivotedData (fetchSalesPlans failedFetch s').1 = []
    ∧ salesPlanDetails (fetchSalesPlans failedFetch s').1 = []
    ∧ (fetchSalesPlans failedFetch s').2 = [].
Proof.
  assert (truthy (PlanningFilter.region_id
                    (mergeFilter (currentFilter demoEdited)
                       (PartialFilter.mk (Some None) None None None None)))
          = false) as H1 by by vm_compute.
  split; [exact H1|].
  exact (X10_deselecting_region_keeps_pivot
           (PartialFilter.mk (Some None) None None None None) failedFetch
           demoEdited H1).
Defined.

(** X11.  [fetchMasterData] asks for the products first and for the
    regions only when the products arrived.  A failure of the product
    query leaves products and regions as they were; a failure of the
    region query leaves the regions as they were but the products already
    replaced.  In every case [isLoading] ends false, and the pivot, the
    planning records, the tracker and the filter are not touched: the
    rows on display stay those of the old product list. *)
Theorem X11_master_data_outcomes
    (productResp : response (list MasterProduct.t))
    (regionResp : response (list MasterRegion.t)) (s : Store) :
  let s' := (fetchMasterData productResp regionResp s).1 in
  let reqs := (fetchMasterData productResp regionResp s).2 in
  isLoading s' = false
  ∧ pivotedData s' = pivotedData s
  ∧ salesPlanDetails s' = salesPlanDetails s
  ∧ modifiedCells s' = modifiedCells s
  ∧ currentFilter s' = currentFilter s
  ∧ (∀ e, resp_error productResp = Some e →
       products s' = products s ∧ regions s' = regions s
       ∧ error s' = Some (error_message e "Failed to fetch master data")
       ∧ reqs = [SelectProducts])
  ∧ (resp_error productResp = None →
       products s' = default [] (resp_data productResp)
       ∧ reqs = [SelectProducts; SelectRegions]
       ∧ (∀ e, resp_error regionResp = Some e →
            regions s' = regions s
            ∧ error s' = Some (error_message e "Failed to fetch master data"))
       ∧ (resp_error regionResp = None →
            regions s' = default [] (resp_data regionResp)
            ∧ error s' = None)).
Proof.
  unfold fetchMasterData.
  destruct (resp_error productResp) as [e|];
    [|destruct (resp_error regionResp) as [e|]]; simpl;
    repeat match goal with
           | |- _ ∧ _ => split
           | |- _ → _ => intros ?
           | |- ∀ _, _ => intros ?
           end; by simplify_eq.
Qed.

(** X12.  After a commit whose upsert succeeded, and after a discard, a
    commit finds nothing to save: it returns the store as it is and sends
    no request, whatever the backend would answer. *)
Theorem X12_nothing_to_commit_twice
    (s : Store) (upsertResp : option thrown)
    (fetchResp fetchResp' : response (list SalesPlanDetail.t)) :
  saveChanges upsertResp fetchResp' (saveChanges None fetchResp s).1
  = ((saveChanges None fetchResp s).1, [])
  ∧ saveChanges upsertResp fetchResp' (discardChanges s)
    = (discardChanges s, []).
Proof.
  split.
  - assert (modifiedCells (saveChanges None fetchResp s).1 = []) as Hm.
    { unfold saveChanges.
      destruct (hasUnsavedChanges s) eqn:Hdirty; simpl.
      - destruct (fetchSalesPlans fetchResp _) as [s3 reqs] eqn:Hfetch.
        simpl. change s3 with (s3, reqs).1. rewrite <- Hfetch.
        by rewrite fetchSalesPlans_modifiedCells.
      - by apply hasUnsavedChanges_false. }
    apply hasUnsavedChanges_false in Hm.
    unfold saveChanges at 1. by rewrite Hm.
  - done.
Qed.

(** X13.  With a non-empty region id in the filter, the batch of a
    commit is, in the order of the tracker, one write record for each
    entry whose key does not start with an underscore; the product id
    written is the text of the key before its first underscore.  For the
    key of a cell that is the product id up to its first underscore: a
    product id without underscore is written whole, a product id [a_b]
    is written as [a]. *)
Theorem X13_batch_of_a_commit (s : Store) (rid : string) :
  PlanningFilter.region_id (currentFilter s) = Some rid → rid ≠ "" →
  upsertData s
  = (fun entry : string * MonthData.t =>
       writeRecord (beforeUnderscore entry.1) rid entry.2)
      <$> filter (fun entry : string * MonthData.t =>
                    beforeUnderscore entry.1 ≠ "") (modifiedCells s)
  ∧ (List.length (upsertData s) ≤ js_size (modifiedCells s))%nat
  ∧ (∀ pid mk, beforeUnderscore (cellKey pid mk) = beforeUnderscore pid)
  ∧ (∀ pid, has_underscore pid = false → beforeUnderscore pid = pid)
  ∧ (∀ a b, has_underscore a = false →
            beforeUnderscore (a +:+ "_" +:+ b) = a).
Proof.
  intros Hregion Hrid.
  assert (upsertData s
          = (fun entry : string * MonthData.t =>
               writeRecord (beforeUnderscore entry.1) rid entry.2)
              <$> filter (fun entry : string * MonthData.t =>
                            beforeUnderscore entry.1 ≠ "") (modifiedCells s))
    as Heq.
  { unfold upsertData. rewrite Hregion.
    unfold JsMap.
    induction (modifiedCells s) as [|[k c] m IH]; [done|].
    rewrite filter_cons.
    pose proof (upsertRecordOf_truthy rid k c Hrid) as Hrec.
    destruct (decide (beforeUnderscore k ≠ "")) as [Hk|Hk].
    - rewrite (omap_cons_Some _ _ _ _ Hrec), decide_True by done.
      rewrite fmap_cons. by rewrite IH.
    - rewrite (omap_cons_None _ _ _ Hrec), decide_False by done.
      exact IH. }
  split_and!.
  - exact Heq.
  - rewrite Heq, length_fmap. apply length_filter.
  - intros pid mk. apply beforeUnderscore_app_underscore.
  - apply beforeUnderscore_clean.
  - intros a b Ha.
    by rewrite beforeUnderscore_app_underscore, beforeUnderscore_clean.
Qed.

Lemma X13_witness :
  PlanningFilter.region_id (currentFilter demoEdited) = Some "R1"
  ∧ "R1" ≠ ""
  ∧ upsertData demoEdited
    = (fun entry : string * MonthData.t =>
         writeRecord (beforeUnderscore entry.1) "R1" entry.2)
        <$> filter (fun entry : string * MonthData.t =>
                      beforeUnderscore entry.1 ≠ "") (modifiedCells demoEdited)
  ∧ (List.length (upsertData demoEdited)
     ≤ js_size (modifiedCells demoEdited))%nat
  ∧ (∀ pid mk, beforeUnderscore (cellKey pid mk) = beforeUnderscore pid)
  ∧ (∀ pid, has_underscore pid = false → beforeUnderscore pid = pid)
  ∧ (∀ a b, has_underscore a = false →
            beforeUnderscore (a +:+ "_" +:+ b) = a).
Proof.
  assert (PlanningFilter.region_id (currentFilter demoEdited) = Some "R1")
    as H1 by by vm_compute.
  assert ("R1" ≠ "") as H2 by done.
  repeat (split; [assumption|]).
  exact (X13_batch_of_a_commit demoEdited "R1" H1 H2).
Defined.

(** X14.  Pending edits outlive every action but a discard and a commit
    whose upsert succeeds: through any sequence of other actions
    (fetches that succeed or fail, filter changes, further edits, commits
    whose upsert fails) every key of the tracker stays in the tracker,
    and [hasUnsavedChanges] stays true. *)
Theorem X14_tracker_persists
    (s : Store) (acts : list Action) (k : string) :
  Forall (fun a => clearsTracker a = false) acts →
  k ∈ js_keys (modifiedCells s) →
  k ∈ js_keys (modifiedCells (runActions s acts))
  ∧ hasUnsavedChanges (runActions s acts) = true.
Proof.
  intros Hacts Hk.
  assert (k ∈ js_keys (modifiedCells (runActions s acts))) as Hk'.
  { revert s Hk. induction Hacts as [|a acts Ha _ IH]; intros s Hk; [done|].
    unfold runActions. simpl. apply IH. by apply runAction_keeps_keys. }
  split; [exact Hk'|]. apply hasUnsavedChanges_true.
  intros Hnil. unfold js_keys in Hk'. rewrite Hnil in Hk'.
  by apply elem_of_nil in Hk'.
Qed.

Lemma X14_witness :
  Forall (fun a => clearsTracker a = false)
         [DoSetFilter demoRange failedFetch;
          DoSaveChanges (Some OtherValue) failedFetch;
          DoUpdateCell "P1" "2026-03" K_ito 2]
  ∧ "P1_2026-02" ∈ js_keys (modifiedCells demoEdited)
  ∧ "P1_2026-02"
    ∈ js_keys (modifiedCells
                 (runActions demoEdited
                    [DoSetFilter demoRange failedFetch;
                     DoSaveChanges (Some OtherValue) failedFetch;
                     DoUpdateCell "P1" "2026-03" K_ito 2]))
  ∧ hasUnsavedChanges
      (runActions demoEdited
         [DoSetFilter demoRange failedFetch;
          DoSaveChanges (Some OtherValue) failedFetch;
          DoUpdateCell "P1" "2026-03" K_ito 2]) = true.
Proof.
  assert (Forall (fun a => clearsTracker a = false)
            [DoSetFilter demoRange failedFetch;
             DoSaveChanges (Some OtherValue) failedFetch;
             DoUpdateCell "P1" "2026-03" K_ito 2]) as H1.
  { repeat constructor. }
  assert ("P1_2026-02" ∈ js_keys (modifiedCells demoEdited)) as H2.
  { vm_compute. left. }
  repeat (split; [assumption|]).
  exact (X14_tracker_persists demoEdited _ "P1_2026-02" H1 H2).
Defined.

(** *** The rows of the pivot *)

(** X15.  The category filter only narrows the rows: with pairwise
    different product ids, the pivot under a category is the pivot
    without category filter restricted to the rows of that category, in
    the same order and with the same cells. *)
Theorem X15_category_filter_narrows
    (f : PlanningFilter.t) (k : ProductCategory)
    (ps : list MasterProduct.t) (plans : list SalesPlanDetail.t) :
  NoDup (MasterProduct.id <$> ps) →
  pivot (mergeFilter f (onlyKategori (Some k))) ps plans
  = filter (fun row => PivotedProductRow.kategori row = k)
           (pivot (mergeFilter f (onlyKategori None)) ps plans).
Proof.
  intros Hnd. rewrite !pivot_formula by done.
  change (filteredProducts (mergeFilter f (onlyKategori (Some k))) ps)
    with (filter (fun p => MasterProduct.kategori p = k) ps).
  change (filteredProducts (mergeFilter f (onlyKategori None)) ps) with ps.
  assert (∀ p,
            PivotedProductRow.kategori
              (fillRows (MasterProduct.id p) plans
                 (initialRow (mergeFilter f (onlyKategori None))
                    (monthColumns (mergeFilter f (onlyKategori None))) p))
            = MasterProduct.kategori p) as Hkat.
  { intros p. by rewrite fillRows_kategori. }
  clear Hnd. induction ps as [|p ps IH]; [done|].
  rewrite fmap_cons, !filter_cons, Hkat.
  case_decide; [|exact IH]. rewrite fmap_cons. f_equal. exact IH.
Qed.

Lemma X15_witness :
  NoDup (MasterProduct.id <$> mixedProducts)
  ∧ pivot (mergeFilter demoFilter (onlyKategori (Some AMB))) mixedProducts
          [demoPlan]
    = filter (fun row => PivotedProductRow.kategori row = AMB)
             (pivot (mergeFilter demoFilter (onlyKategori None)) mixedProducts
                    [demoPlan]).
Proof.
  assert (NoDup (MasterProduct.id <$> mixedProducts)) as H1.
  { apply (bool_decide_unpack _). by vm_compute. }
  split; [exact H1|].
  exact (X15_category_filter_narrows demoFilter AMB mixedProducts [demoPlan] H1).
Defined.

(** X16.  Every row of the pivot carries the region id of the filter
    (the empty string when none is selected).  Its region code is that
    of the last planning record of its product in the input, whatever
    the month of that record, inside the requested range or not, and the
    empty string when the product has no record. *)
Theorem X16_row_region
    (f : PlanningFilter.t) (ps : list MasterProduct.t)
    (plans : list SalesPlanDetail.t) (row : PivotedProductRow.t) :
  row ∈ pivot f ps plans →
  PivotedProductRow.region_id row = or_empty (PlanningFilter.region_id f)
  ∧ PivotedProductRow.region_kode row
    = match last (plansOf (PivotedProductRow.product_id row) plans) with
      | Some plan => SalesPlanDetail.region_kode plan
      | None => ""
      end.
Proof.
  intros (p & _ & Hid & ->)%pivot_row_origin.
  destruct (fillRows_region (MasterProduct.id p) plans
              (initialRow f (monthColumns f) p)) as [Hr Hk].
  split; [by rewrite Hr|]. by rewrite Hid, Hk.
Qed.

Lemma X16_witness :
  (∃ row, row ∈ pivot demoFilter [demoProduct] [demoPlan]
          ∧ PivotedProductRow.region_id row
            = or_empty (PlanningFilter.region_id demoFilter)
          ∧ PivotedProductRow.region_kode row
            = match last (plansOf (PivotedProductRow.product_id row)
                                  [demoPlan]) with
              | Some plan => SalesPlanDetail.region_kode plan
              | None => ""
              end).
Proof.
  assert (∃ row, row ∈ pivot demoFilter [demoProduct] [demoPlan])
    as [row Hrow].
  { assert (pivot demoFilter [demoProduct] [demoPlan] ≠ []) as Hne
      by by vm_compute.
    destruct (pivot demoFilter [demoProduct] [demoPlan]) as [|row rows];
      [done|]. exists row. left. }
  exists row. split; [exact Hrow|].
  exact (X16_row_region demoFilter [demoProduct] [demoPlan] row Hrow).
Defined.



(** *** The remaining getters *)

(** X18.  [productsByCategory] splits the product list in two: every
    product is in exactly one of the two lists, each list keeps the order
    of the product list, and each is the list of products the transform
    pivots under the category filter of that name. *)
Theorem X18_products_by_category (s : Store) :
  let by_cat := productsByCategory s in
  (ProductsByCategory.AMB by_cat ++ ProductsByCategory.MCB by_cat)%list
  ≡ₚ products s
  ∧ ProductsByCategory.AMB by_cat `sublist_of` products s
  ∧ ProductsByCategory.MCB by_cat `sublist_of` products s
  ∧ (∀ p, p ∈ ProductsByCategory.AMB by_cat →
          p ∉ ProductsByCategory.MCB by_cat)
  ∧ (∀ f, ProductsByCategory.AMB by_cat
          = filteredProducts (mergeFilter f (onlyKategori (Some AMB)))
                             (products s))
  ∧ (∀ f, ProductsByCategory.MCB by_cat
          = filteredProducts (mergeFilter f (onlyKategori (Some MCB)))
                             (products s)).
Proof.
  simpl. split_and!.
  - assert (filter (fun p => MasterProduct.kategori p = MCB) (products s)
            = filter (fun p => ¬ MasterProduct.kategori p = AMB) (products s))
      as ->.
    { apply list_filter_iff. intros p.
      destruct (MasterProduct.kategori p); split; congruence. }
    apply filter_app_complement.
  - apply sublist_filter.
  - apply sublist_filter.
  - intros p [Ha _]%list_elem_of_filter [Hm _]%list_elem_of_filter.
    congruence.
  - done.
  - done.
Qed.

(** *** The user store *)

(** X19.  An [updateUser] the backend accepts returns true and changes
    at most one row of the local list, the first one with that id, which
    it merges with the updates; the list keeps its length and, when no row
    has that id, is left as it is.  The backend is sent only [name],
    [role] and [is_active] with a new [updated_at]; unless the updates
    carry them, the ids and the [updated_at] of the local rows stay as
    they were. *)
Theorem X19_update_merges_first_match
    (userId : string) (updates : PartialUserProfile.t) (now : string)
    (s : UserStore.t) :
  let out := updateUser userId updates now None s in
  let users' := UserStore.users out.1.1 in
  out.1.2 = true
  ∧ out.2 = [UpdateUserProfile userId (PartialUserProfile.name updates)
               (PartialUserProfile.role updates)
               (PartialUserProfile.is_active updates) now]
  ∧ List.length users' = List.length (UserStore.users s)
  ∧ ((∀ u, u ∈ UserStore.users s → UserProfile.id u ≠ userId) →
     users' = UserStore.users s)
  ∧ (∀ i u, UserStore.users s !! i = Some u → UserProfile.id u = userId →
       (∀ j v, UserStore.users s !! j = Some v → (j < i)%nat →
               UserProfile.id v ≠ userId) →
       users' = <[i := mergeUser u updates]> (UserStore.users s))
  ∧ (PartialUserProfile.id updates = None →
     UserProfile.id <$> users' = UserProfile.id <$> UserStore.users s)
  ∧ (PartialUserProfile.updated_at updates = None →
     UserProfile.updated_at <$> users'
     = UserProfile.updated_at <$> UserStore.users s).
Proof.
  intros out users'.
  destruct (updateUser_users userId updates now s)
    as [[Heq Hnone]|(i & u & Hi & Hu & Hfirst & Heq)];
    fold out in Heq; fold users' in Heq.
  - split_and!; try done; try by rewrite Heq.
    intros j v Hj Hv _. exfalso.
    apply (Hnone v); [by eapply list_elem_of_lookup_2|done].
  - split_and!; try done.
    + by rewrite Heq, length_insert.
    + intros Hnone. exfalso.
      apply (Hnone u); [by eapply list_elem_of_lookup_2|done].
    + intros j v Hj Hv Hfirst'.
      destruct (Nat.lt_trichotomy i j) as [Hlt|[->|Hlt]].
      * exfalso. by apply (Hfirst' i u).
      * by simplify_eq.
      * exfalso. by apply (Hfirst j v).
    + intros Hid. rewrite Heq. apply (fmap_insert_same _ _ _ u); [done|].
      unfold mergeUser. simpl. by rewrite Hid.
    + intros Hup. rewrite Heq. apply (fmap_insert_same _ _ _ u); [done|].
      unfold mergeUser. simpl. by rewrite Hup.
Qed.

(** X20.  A [deleteUser] the backend accepts leaves no row with that id,
    however many there were, so deleting twice is deleting once and an
    update of that id afterwards finds no row to change.  When the updates
    do not change the id, deleting after an update gives the list that
    deleting alone gives. *)
Theorem X20_delete_after_update
    (userId : string) (updates : PartialUserProfile.t) (now : string)
    (s : UserStore.t) :
  PartialUserProfile.id updates = None
  ∨ PartialUserProfile.id updates = Some userId →
  let deleted := (deleteUser userId None s).1.1 in
  let updated := (updateUser userId updates now None s).1.1 in
  (∀ u, u ∈ UserStore.users deleted ↔
        u ∈ UserStore.users s ∧ UserProfile.id u ≠ userId)
  ∧ UserStore.users deleted `sublist_of` UserStore.users s
  ∧ (deleteUser userId None deleted).1.1 = deleted
  ∧ (updateUser userId updates now None deleted).1.1 = deleted
  ∧ (deleteUser userId None updated).1.1 = deleted.
Proof.
  intros Hid deleted updated.
  assert (∀ u, u ∈ UserStore.users deleted ↔
               u ∈ UserStore.users s ∧ UserProfile.id u ≠ userId) as Hin.
  { intros u. unfold deleted. simpl. rewrite list_elem_of_filter. tauto. }
  split_and!.
  - exact Hin.
  - apply sublist_filter.
  - unfold deleted, deleteUser. simpl. f_equal.
    apply list_filter_filter_l. tauto.
  - destruct (updateUser_users userId updates now deleted)
      as [[Heq _]|(i & u & Hi & Hu & _)].
    + unfold deleted, updateUser, deleteUser in *. simpl in *.
      by rewrite Heq.
    + exfalso. apply list_elem_of_lookup_2 in Hi. apply Hin in Hi. tauto.
  - assert (filter (fun u => UserProfile.id u ≠ userId)
                   (UserStore.users updated)
            = filter (fun u => UserProfile.id u ≠ userId) (UserStore.users s))
      as Hf.
    { destruct (updateUser_users userId updates now s)
        as [[Heq _]|(i & u & Hi & Hu & _ & Heq)]; fold updated in Heq;
        rewrite Heq; [done|].
      apply (filter_insert_outside _ _ _ u); [done|tauto|].
      intros Hne. apply Hne. unfold mergeUser. simpl.
      by destruct Hid as [->| ->]. }
    clearbody updated. unfold deleted, deleteUser. simpl. by rewrite Hf.
Qed.

Lemma X20_witness :
  (PartialUserProfile.id renameOnly = None
   ∨ PartialUserProfile.id renameOnly = Some "u2")
  ∧ let deleted := (deleteUser "u2" None demoUserStore).1.1 in
    let updated := (updateUser "u2" renameOnly "t2" None demoUserStore).1.1 in
    (∀ u, u ∈ UserStore.users deleted ↔
          u ∈ UserStore.users demoUserStore ∧ UserProfile.id u ≠ "u2")
    ∧ UserStore.users deleted `sublist_of` UserStore.users demoUserStore
    ∧ (deleteUser "u2" None deleted).1.1 = deleted
    ∧ (updateUser "u2" renameOnly "t2" None deleted).1.1 = deleted
    ∧ (deleteUser "u2" None updated).1.1 = deleted.
Proof.
  assert (PartialUserProfile.id renameOnly = None
          ∨ PartialUserProfile.id renameOnly = Some "u2") as H1 by by left.
  split; [exact H1|].
  exact (X20_delete_after_update "u2" renameOnly "t2" demoUserStore H1).
Defined.

(** X21.  [createUser] returns true exactly when there is a session and
    the edge function answers with [success].  Without a session it posts
    nothing; when it returns false the user list is as before, an error
    message is set and no list is fetched.  When it returns true it has
    fetched the list once, and a failure of that fetch is not a failure of
    [createUser]: the result is still true, the list is the old one and
    the error of the fetch is left in [error]. *)
Theorem X21_create_user_outcomes
    (userData : CreateUserData.t) (session : option string)
    (http : thrown + CreateUserResult.t)
    (refresh : response (list UserProfile.t)) (s : UserStore.t) :
  let out := createUser userData session http refresh s in
  let s' := out.1.1 in
  let ok := out.1.2 in
  let reqs := out.2 in
  (ok = true ↔ ∃ token result,
     session = Some token ∧ http = inr result
     ∧ CreateUserResult.success result = true)
  ∧ (session = None →
     reqs = [GetSession] ∧ UserStore.error s' = Some "Not authenticated")
  ∧ (∀ token, session = Some token →
     ∃ rest, reqs = GetSession :: PostCreateUser token userData :: rest)
  ∧ (ok = false →
     UserStore.users s' = UserStore.users s
     ∧ is_Some (UserStore.error s') ∧ SelectUsers ∉ reqs)
  ∧ (ok = true →
     (∃ token, reqs = [GetSession; PostCreateUser token userData; SelectUsers])
     ∧ s' = (fetchUsers refresh s).1
     ∧ (∀ e, resp_error refresh = Some e →
          UserStore.users s' = UserStore.users s
          ∧ UserStore.error s'
            = Some (error_message e "Failed to fetch users"))
     ∧ (resp_error refresh = None →
          UserStore.users s' = default [] (resp_data refresh)
          ∧ UserStore.error s' = None)).
Proof.
  intros out s' ok reqs. unfold reqs, ok, s', out, createUser, fetchUsers.
  destruct session as [token|]; [destruct http as [e|[[] msg]]|]; simpl;
    try destruct (resp_error refresh) as [e'|]; simpl;
    repeat match goal with
           | |- _ ∧ _ => split
           | |- _ ↔ _ => split
           | |- _ → _ => intros ?
           | |- ∀ _, _ => intros ?
           end;
    repeat match goal with
           | H : ∃ _, _ |- _ => destruct H
           | H : _ ∧ _ |- _ => destruct H
           end;
    simplify_eq; try done; try (by eexists); try (by eexists _, _);
    by repeat (apply not_elem_of_cons; split; [done|]); apply not_elem_of_nil.
Qed.

(** X22.  Every action of the user store ends with [isLoading] false,
    and what it leaves depends on the earlier store only through the user
    list: an earlier error is never kept.  Whenever an action leaves an
    error message, it has left the user list as it was; and an action
    that returns false leaves an error message. *)
Theorem X22_user_store_errors (a : UserAction) (s : UserStore.t) :
  let s' := (runUserAction s a).1 in
  UserStore.isLoading s' = false
  ∧ (∀ loading err,
       runUserAction (UserStore.mk (UserStore.users s) loading err) a
       = runUserAction s a)
  ∧ (UserStore.error s' ≠ None → UserStore.users s' = UserStore.users s)
  ∧ ((runUserAction s a).2 = Some false → UserStore.error s' ≠ None).
Proof.
  destruct a as [resp|userData session http refresh
                 |userId updates now respError|userId respError]; simpl.
  - unfold fetchUsers. destruct (resp_error resp); simpl; split_and!; done.
  - unfold createUser, fetchUsers.
    destruct session as [token|]; [destruct http as [e|[[] msg]]|]; simpl;
      try destruct (resp_error refresh); simpl; split_and!; done.
  - unfold updateUser. destruct respError; simpl; split_and!; done.
  - unfold deleteUser. destruct respError; simpl; split_and!; done.
Qed.
